(** * shoppin-crawler: the resilient crawl engine, embedded and verified

    The development follows the Python sources:
    - [Base]       src/base.py      (registry, request layer, accumulator flush)
    - [Virgio]     src/platforms/virgio.py   (cursor pagination)
    - [TataCliq]   src/platforms/tatacliq.py (error check that decodes JSON)
    - [Main]       main.py          (orchestrator)
    - [SocialScan] social_scan_platforms.py (token cache, normalized outcomes)

    Python objects are records, mutation is explicit state passing, an
    exception is the [Raise] branch of [result], and the outside world (the
    remote site, the random generator, the clock) is an oracle indexed by the
    number of calls made so far. *)

From Stdlib Require Import Ascii QArith.
From stdpp Require Import gmap strings list fin_maps pretty.

Set Default Proof Using "Type".
#[local] Set Warnings "-clear-no-such-hyp".

(* ===================================================================== *)
(** * Exceptions and results *)
(* ===================================================================== *)

(** Message carried by [QueryError]: the two format strings of base.py, kept
    structured ("Failed after {n} attempts", "Unexpected content type {ct}.."),
    and the fixed token message of social_scan_platforms.py. *)
Inductive query_msg :=
| FailedAfter (max_retries : Z)
| UnexpectedContentType (ct : string)
| TokenErrorMessage.

(** The exceptions the engine raises or meets.  [RequestException] stands for
    requests.exceptions.RequestException and its subclasses (connection reset,
    DNS failure, timeout, undecodable JSON).  [KeyboardInterrupt] is the one
    member that is not a subclass of Python's Exception. *)
Inductive exn :=
| RequestException (msg : string)
| QueryError (msg : query_msg)
| KeyError (key : string)
| ValueError (msg : string)
| RuntimeError (msg : string)
| KeyboardInterrupt.

Inductive result (A : Type) :=
| Ok (a : A)
| Raise (e : exn).
Arguments Ok {A} a.
Arguments Raise {A} e.

(** [except Exception] *)
Definition is_Exception (e : exn) : bool :=
  match e with
  | KeyboardInterrupt => false
  | _ => true
  end.

(** [except (requests.exceptions.RequestException, QueryError)] *)
Definition is_request_or_query_error (e : exn) : bool :=
  match e with
  | RequestException _ | QueryError _ => true
  | _ => false
  end.

Definition completes {A} (r : result A) : bool :=
  match r with Ok _ => true | Raise _ => false end.

#[global] Instance query_msg_eq_dec : EqDecision query_msg.
Proof. solve_decision. Defined.
#[global] Instance exn_eq_dec : EqDecision exn.
Proof. solve_decision. Defined.

(* ===================================================================== *)
(** * src/base.py *)
(* ===================================================================== *)

Module Base.

(** class Product(BaseModel) *)
Record Product := mkProduct {
  product_id : string;
  product_name : string;
  product_url : string
}.

#[global] Instance Product_eq_dec : EqDecision Product.
Proof. solve_decision. Defined.

(** What a response carries for the engine: the Content-Type header (absent
    headers make [headers["Content-Type"]] raise KeyError) and the decoded
    JSON body ([None] when [request.json()] cannot decode it). *)
Record Response (Body : Type) := mkResponse {
  content_type : option string;
  json : option Body
}.
Arguments mkResponse {Body}.
Arguments content_type {Body}.
Arguments json {Body}.

(** One call of [session.request]: a response, or an exception raised by the
    transport. *)
Inductive http_outcome (Body : Type) :=
| Responds (r : Response Body)
| Fails (e : exn).
Arguments Responds {Body} r.
Arguments Fails {Body} e.

(** Argument of [time.sleep]: an int for the backoff and the inter-page
    delay, a float for the jittered delay (floats are taken as exact
    rationals). *)
Inductive duration :=
| DInt (z : Z)
| DFloat (q : Q).

(** Class attributes that configure a crawler ([DELAY] = 2 and
    [MAX_RETRIES] = 3 unless a subclass overrides them). *)
Record config := mkConfig {
  platform_name : string;
  OUTPUT_FOLDER : string;
  DELAY : Z;
  MAX_RETRIES : Z;
  USER_AGENT_ROTATION : bool
}.

(** The world a crawler instance talks to.  [http n params] is the outcome of
    the [n]-th call of [session.request] of this instance (counted by
    [request_count], from 1) when issued with query parameters [params];
    [random n] is the value of [random.random()] drawn for that attempt;
    [now k] is the formatted [datetime.now()] read before the [k]-th CSV is
    written. *)
Record env (Body : Type) := mkEnv {
  http : nat → gmap string string → http_outcome Body;
  random : nat → Q;
  now : nat → string
}.
Arguments mkEnv {Body}.
Arguments http {Body}.
Arguments random {Body}.
Arguments now {Body}.

(** Instance attributes of a crawler together with the traces of its effects:
    [slept] lists the arguments of [sleep] in call order, [written] the
    [to_csv] calls (path and rows), [ua_updates] counts [update_user_agent]. *)
Record crawler := mkCrawler {
  request_count : nat;
  DATAFRAME : list Product;
  data_saved : bool;
  params : gmap string string;
  ua_updates : nat;
  slept : list duration;
  written : list (string * list Product)
}.

(** [__init__]: no request made, the class-level empty DataFrame, nothing
    saved. *)
Definition init (initial_params : gmap string string) : crawler :=
  {| request_count := 0; DATAFRAME := []; data_saved := false;
     params := initial_params; ua_updates := 0; slept := []; written := [] |}.

(** [time.sleep(d)], recorded in the trace.  The delays of a crawler are not
    negative ([DELAY] is 2 in every adapter and [random.random()] lies in
    [0, 1)), so the call itself never raises. *)
Definition sleep (d : duration) (s : crawler) : crawler :=
  {| request_count := request_count s; DATAFRAME := DATAFRAME s;
     data_saved := data_saved s; params := params s;
     ua_updates := ua_updates s; slept := slept s ++ [d];
     written := written s |}.

Definition count_request (s : crawler) : crawler :=
  {| request_count := S (request_count s); DATAFRAME := DATAFRAME s;
     data_saved := data_saved s; params := params s;
     ua_updates := ua_updates s; slept := slept s; written := written s |}.

Definition update_user_agent (s : crawler) : crawler :=
  {| request_count := request_count s; DATAFRAME := DATAFRAME s;
     data_saved := data_saved s; params := params s;
     ua_updates := S (ua_updates s); slept := slept s; written := written s |}.

Definition set_param (k v : string) (s : crawler) : crawler :=
  {| request_count := request_count s; DATAFRAME := DATAFRAME s;
     data_saved := data_saved s; params := <[k:=v]> (params s);
     ua_updates := ua_updates s; slept := slept s; written := written s |}.

(** [self.DATAFRAME = pd.concat([self.DATAFRAME, df], ignore_index=True)] *)
Definition concat_rows (df : list Product) (s : crawler) : crawler :=
  {| request_count := request_count s; DATAFRAME := DATAFRAME s ++ df;
     data_saved := data_saved s; params := params s;
     ua_updates := ua_updates s; slept := slept s; written := written s |}.

(** A method of a crawler: it may change the instance and the traces, and
    returns a value or raises. *)
Definition M (A : Type) : Type := crawler → result A * crawler.

Definition ret {A} (a : A) : M A := λ s, (Ok a, s).
Definition raise {A} (e : exn) : M A := λ s, (Raise e, s).
Definition bind {A B} (m : M A) (k : A → M B) : M B :=
  λ s, match m s with
       | (Ok a, s') => k a s'
       | (Raise e, s') => (Raise e, s')
       end.
Definition lift {A} (r : result A) : M A := λ s, (r, s).
Definition modify (f : crawler → crawler) : M unit := λ s, (Ok tt, f s).

Notation "'let!' x ':=' m 'in' k" := (bind m (λ x, k))
  (at level 10, x name, m at level 200, k at level 200).
Notation "'step!' m 'in' k" := (bind m (λ _, k))
  (at level 10, m at level 200, k at level 200).

(* --------------------------------------------------------------------- *)
(** ** CrawlerRegistry *)

(** Python's [str.upper] on ASCII names. *)
Definition upper_ascii (c : ascii) : ascii :=
  let n := nat_of_ascii c in
  if (97 <=? n)%nat && (n <=? 122)%nat then ascii_of_nat (n - 32) else c.

Fixpoint upper (s : string) : string :=
  match s with
  | EmptyString => EmptyString
  | String c s' => String (upper_ascii c) (upper s')
  end.

Section Registry.
Context {Class : Type}.

(** [cls._crawlers[name.upper()] = crawler_class] *)
Definition register (name : string) (crawler_class : Class)
    (_crawlers : gmap string Class) : gmap string Class :=
  <[upper name := crawler_class]> _crawlers.

(** [cls._crawlers.get(name.upper())] *)
Definition get_crawler (_crawlers : gmap string Class) (name : string)
    : option Class :=
  _crawlers !! upper name.

(** [list(cls._crawlers.keys())]; the insertion order of the dict is not
    kept by the map, and nothing below depends on it. *)
Definition available_crawlers (_crawlers : gmap string Class) : list string :=
  (map_to_list _crawlers).*1.
End Registry.

(* --------------------------------------------------------------------- *)
(** ** get_json *)

Definition startswith (s pre : string) : bool := String.prefix pre s.

Definition get_json {Body} (request : Response Body) : result Body :=
  match content_type request with
  | None => Raise (KeyError "Content-Type")
  | Some ct =>
      if negb (startswith ct "application/json")
      then Raise (QueryError (UnexpectedContentType ct))
      else match json request with
           | Some body => Ok body
           | None => Raise (RequestException "JSONDecodeError")
           end
  end.

(* --------------------------------------------------------------------- *)
(** ** The request layer *)

(** How one pass through the body of the [while] loop of [_request] ends. *)
Inductive loop_step (Body : Type) :=
| Continue (retry_count : Z)
| Return (response : Response Body)
| Throw (e : exn).
Arguments Continue {Body} retry_count.
Arguments Return {Body} response.
Arguments Throw {Body} e.

Section Request.
Context {Body : Type}.
Variable cfg : config.
Variable world : env Body.
(** The adapter's [check_error]: the truth value it returns, or the
    exception it raises. *)
Variable check_error : Response Body → result bool.

(** [self.DELAY * (0.5 + random.random())] *)
Definition jittered (r : Q) : Q := (inject_Z (DELAY cfg) * ((1 # 2) + r))%Q.

(** The [except (RequestException, QueryError)] clause; any other
    exception leaves the loop at once. *)
Definition on_exception (retry_count : Z) (e : exn) (s : crawler)
    : loop_step Body * crawler :=
  if is_request_or_query_error e then
    let retry_count := (retry_count + 1)%Z in
    if (retry_count =? MAX_RETRIES cfg)%Z then (Throw e, s)
    else (Continue retry_count,
          sleep (DInt (DELAY cfg * (retry_count + 1))) s)
  else (Throw e, s).

(** The body of the [while] loop, entered with [retry_count].  The merge of
    [kwargs["headers"]] into [DEFAULT_HEADERS] and the cookies do not take
    part in the control flow; the request is identified by its number and
    its query parameters. *)
Definition attempt (retry_count : Z) (s : crawler) : loop_step Body * crawler :=
  let s := count_request s in
  let jittered_delay := jittered (random world (request_count s)) in
  match http world (request_count s) (params s) with
  | Fails e => on_exception retry_count e s
  | Responds response =>
      match check_error response with
      | Raise e => on_exception retry_count e s
      | Ok true =>
          let retry_count := (retry_count + 1)%Z in
          let s := if USER_AGENT_ROTATION cfg then update_user_agent s else s in
          (Continue retry_count,
           sleep (DInt (DELAY cfg * (retry_count + 1))) s)
      | Ok false => (Return response, sleep (DFloat jittered_delay) s)
      end
  end.

(** [while retry_count < self.MAX_RETRIES: ...] followed by the final
    [raise QueryError]; [None] when [fuel] passes do not finish the loop. *)
Fixpoint request_loop (fuel : nat) (retry_count : Z) (s : crawler)
    : option (result (Response Body) * crawler) :=
  if (retry_count <? MAX_RETRIES cfg)%Z then
    match fuel with
    | O => None
    | S fuel =>
        match attempt retry_count s with
        | (Continue retry_count, s) => request_loop fuel retry_count s
        | (Return response, s) => Some (Ok response, s)
        | (Throw e, s) => Some (Raise e, s)
        end
    end
  else Some (Raise (QueryError (FailedAfter (MAX_RETRIES cfg))), s).

(** [_request]: the loop started at [retry_count = 0].  [MAX_RETRIES]
    passes always finish it ([request_loop_total] below), so the last
    branch is never taken. *)
Definition _request : M (Response Body) :=
  λ s, match request_loop (Z.to_nat (MAX_RETRIES cfg)) 0 s with
       | Some r => r
       | None => (Raise (RuntimeError "unreachable"), s)
       end.

(** [get] and [post] only fix the HTTP method. *)
Definition get : M (Response Body) := _request.
Definition post : M (Response Body) := _request.

(** The first [k] passes of the loop entered with [retry_count]: the
    counter and the instance when all [k] end in [continue] or in a caught
    exception, or how the loop ended before. *)
Fixpoint passes (k : nat) (retry_count : Z) (s : crawler)
    : loop_step Body * crawler :=
  match k with
  | O => (Continue retry_count, s)
  | S k =>
      if (retry_count <? MAX_RETRIES cfg)%Z then
        match attempt retry_count s with
        | (Continue retry_count, s) => passes k retry_count s
        | ended => ended
        end
      else (Throw (QueryError (FailedAfter (MAX_RETRIES cfg))), s)
  end.

(** What decides the [n]-th attempt, sent with [params]: the verdict of
    [check_error] on the response, or the exception raised by the
    transport or by [check_error]. *)
Definition attempt_outcome (n : nat) (params : gmap string string)
    : result bool :=
  match http world n params with
  | Fails e => Raise e
  | Responds response => check_error response
  end.

(** The attempt is classified as an error by [check_error]. *)
Definition classified_as_error (n : nat) (params : gmap string string) : bool :=
  match attempt_outcome n params with
  | Ok true => true
  | _ => false
  end.

(** The attempt fails: classified as an error, or stopped by an exception
    that [_request] catches. *)
Definition attempt_fails (n : nat) (params : gmap string string) : bool :=
  match attempt_outcome n params with
  | Ok b => b
  | Raise e => is_request_or_query_error e
  end.

(** What [_request] raises once [MAX_RETRIES] attempts have failed, the
    last of them numbered [n]. *)
Definition final_exception (n : nat) (params : gmap string string) : exn :=
  if (0 <? MAX_RETRIES cfg)%Z then
    match attempt_outcome n params with
    | Raise e => e
    | Ok _ => QueryError (FailedAfter (MAX_RETRIES cfg))
    end
  else QueryError (FailedAfter (MAX_RETRIES cfg)).

(* ------------------------------------------------------------------- *)
(** ** output_data and safe_run *)

(** [DataFrame.drop_duplicates]: rows equal in every column are dropped,
    the first occurrence is kept. *)
Fixpoint drop_dups_from (seen rows : list Product) : list Product :=
  match rows with
  | [] => []
  | row :: rows =>
      if bool_decide (row ∈ seen) then drop_dups_from seen rows
      else row :: drop_dups_from (row :: seen) rows
  end.
Definition drop_duplicates (rows : list Product) : list Product :=
  drop_dups_from [] rows.

Definition output_file_path (timestamp : string) : string :=
  OUTPUT_FOLDER cfg +:+ "/" +:+ platform_name cfg +:+ "_products_"
    +:+ timestamp +:+ ".csv".

Definition empty (df : list Product) : bool :=
  match df with [] => true | _ => false end.

Definition output_data (s : crawler) : crawler :=
  if empty (DATAFRAME s) || data_saved s then s
  else
    let timestamp := now world (length (written s)) in
    let df := drop_duplicates (DATAFRAME s) in
    {| request_count := request_count s; DATAFRAME := df;
       data_saved := true; params := params s;
       ua_updates := ua_updates s; slept := slept s;
       written := written s ++ [(output_file_path timestamp, df)] |}.

(** [safe_run]: [run] is the adapter's loop, which may not end within
    [fuel] iterations.  The exception, if any, is re-raised after the
    [finally] clause has called [output_data]. *)
Definition safe_run (run : nat → crawler → option (result unit * crawler))
    (fuel : nat) (s : crawler) : option (result unit * crawler) :=
  match run fuel s with
  | None => None
  | Some (r, s) => Some (r, output_data s)
  end.
End Request.

(** What the output step looks at besides the accumulator. *)
Definition same_output (s s' : crawler) : Prop :=
  written s' = written s ∧ data_saved s' = data_saved s.

(* --------------------------------------------------------------------- *)
(** ** The keyword arguments of a request *)

(** The two class-level dictionaries, shared by every crawler instance of
    the process. *)
Record class_attrs := mkClassAttrs {
  DEFAULT_HEADERS : gmap string string;
  DEFAULT_COOKIES : gmap string string
}.

(** The headers and cookies [_request] hands to [session.request]. *)
Record request_kwargs := mkKwargs {
  kw_headers : gmap string string;
  kw_cookies : gmap string string
}.

(** The three statements of [_request] that fill [kwargs]:
    [self.DEFAULT_HEADERS.update(kwargs["headers"])] when the caller passed
    headers, then [kwargs["headers"] = self.DEFAULT_HEADERS] and
    [kwargs["cookies"] = self.DEFAULT_COOKIES]. *)
Definition prepare_kwargs (headers cookies : option (gmap string string))
    (cls : class_attrs) : request_kwargs * class_attrs :=
  let cls :=
    match headers with
    | Some headers =>
        {| DEFAULT_HEADERS := headers ∪ DEFAULT_HEADERS cls;
           DEFAULT_COOKIES := DEFAULT_COOKIES cls |}
    | None => cls
    end in
  ({| kw_headers := DEFAULT_HEADERS cls; kw_cookies := DEFAULT_COOKIES cls |},
   cls).

End Base.

(* ===================================================================== *)
(** * src/platforms/virgio.py *)
(* ===================================================================== *)

Module Virgio.
Import Base.

(** The part of the listing JSON that the crawler reads.  A node is a dict
    read with [product.get(key, "")]; its values are strings. *)
Record node := mkNode {
  id : option string;
  handle : option string;
  title : option string
}.

Record page_info := mkPageInfo {
  hasNextPage : bool;
  endCursor : string
}.

(** [product_data]: the keys "nodes" and "pageInfo" may be missing. *)
Record product_data := mkProductData {
  nodes : option (list node);
  pageInfo : option page_info
}.

(** [json_body]: [collection_products] is [json_body["collection"]["products"]],
    [None] when one of the two keys is missing. *)
Record body := mkBody {
  collection_products : option product_data
}.

Definition base_url : string := "https://www.virgio.com/".

Definition initial_params : gmap string string :=
  {[ "_data" := "routes/collections.$collectionHandle.(products).($productHandle)" ]}.

(** [s.split("/")[-1]] *)
Fixpoint last_segment_from (acc s : string) : string :=
  match s with
  | EmptyString => acc
  | String c s' =>
      if Ascii.eqb c "/" then last_segment_from "" s'
      else last_segment_from (acc +:+ String c "") s'
  end.
Definition last_segment (s : string) : string := last_segment_from "" s.

(** Truth value of a Python string. *)
Definition nonempty (s : string) : bool :=
  match s with EmptyString => false | _ => true end.

(** No "/" occurs in the string. *)
Fixpoint slash_free (s : string) : bool :=
  match s with
  | EmptyString => true
  | String c s' => negb (Ascii.eqb c "/") && slash_free s'
  end.

(** The body of the [for] loop of [parse_data]. *)
Definition parse_node (product : node) : Product :=
  let product_id := default "" (id product) in
  let product_id := if nonempty product_id then last_segment product_id else "" in
  let product_url := default "" (handle product) in
  let product_url :=
    if nonempty product_url then base_url +:+ "products/" +:+ product_url else "" in
  {| product_id := product_id;
     product_name := default "" (title product);
     product_url := product_url |}.

Definition parse_data (products : list node) : M unit :=
  modify (concat_rows (parse_node <$> products)).

(** [check_error] defers to the base class, which returns False. *)
Definition check_error (response : Response body) : result bool := Ok false.

Section Crawler.
(** Directory that holds the package; [OUTPUT_FOLDER] is its "output"
    sub-directory. *)
Variable project_dir : string.
Variable world : env body.

Definition cfg : config :=
  {| platform_name := "Virgio";
     OUTPUT_FOLDER := project_dir +:+ "/output";
     DELAY := 2;
     MAX_RETRIES := 3;
     USER_AGENT_ROTATION := false |}.

Definition getitem {A} (key : string) (o : option A) : result A :=
  match o with
  | Some a => Ok a
  | None => Raise (KeyError key)
  end.

(** [crawl]: [get_json] is applied to the response that [self.get] has
    already returned. *)
Definition crawl : M bool :=
  let! r := get cfg world check_error in
  let! json_body := lift (get_json r) in
  let! product_data := lift (getitem "products" (collection_products json_body)) in
  match nodes product_data with
  | Some (n :: ns) =>
      step! parse_data (n :: ns) in
      let! page_info := lift (getitem "pageInfo" (pageInfo product_data)) in
      if negb (hasNextPage page_info) then ret false
      else
        step! modify (set_param "cursor" (endCursor page_info)) in
        step! modify (set_param "direction" "next") in
        ret true
  | _ => ret false
  end.

(** [run]: the [while True] loop, at most [fuel] pages ([page_number] only
    feeds the log), then [output_data]. *)
Fixpoint run (fuel : nat) (s : crawler) : option (result unit * crawler) :=
  match fuel with
  | O => None
  | S fuel =>
      match crawl s with
      | (Raise e, s) => Some (Raise e, s)
      | (Ok false, s) => Some (Ok tt, output_data cfg world s)
      | (Ok true, s) => run fuel (sleep (DInt (DELAY cfg)) s)
      end
  end.

Definition new : crawler := init initial_params.
End Crawler.

End Virgio.

(* ===================================================================== *)
(** * src/platforms/tatacliq.py *)
(* ===================================================================== *)

Module TataCliq.
Import Base.

(** The part of the search JSON read by [check_error]: the value under
    "error", when the key is present. *)
Record body := mkBody {
  error : option string
}.

(** [check_error] decodes the response itself, inside the [try] of
    [_request]. *)
Definition check_error (response : Response body) : result bool :=
  match get_json response with
  | Raise e => Raise e
  | Ok json_body =>
      match error json_body with
      | Some msg => Ok (Virgio.nonempty msg)
      | None => Ok false
      end
  end.

Definition cfg (project_dir : string) : config :=
  {| platform_name := "Tata Cliq";
     OUTPUT_FOLDER := project_dir +:+ "/output";
     DELAY := 2;
     MAX_RETRIES := 3;
     USER_AGENT_ROTATION := false |}.

End TataCliq.

(* ===================================================================== *)
(** * main.py *)
(* ===================================================================== *)

Module Main.
Import Base.

(** What the orchestrator uses of a registered class: the constructor (the
    base [__init__] raises ValueError without a domain or platform name) and
    the bound [safe_run], in the world the instance runs in. *)
Record crawler_class := mkClass {
  new : result crawler;
  class_safe_run : nat → crawler → option (result unit * crawler)
}.

(** The class registered by virgio.py. *)
Definition VirgioCrawler (project_dir : string) (world : env Virgio.body)
    : crawler_class :=
  {| new := Ok Virgio.new;
     class_safe_run :=
       safe_run (Virgio.cfg project_dir) world (Virgio.run project_dir world) |}.

(** [crawler = crawler_class()] followed by [crawler.safe_run()]: how the
    two calls end, [None] when [safe_run] does not end. *)
Definition instantiate_and_run (crawler_class : crawler_class) (fuel : nat)
    : option (result unit) :=
  match new crawler_class with
  | Raise e => Some (Raise e)
  | Ok crawler =>
      match class_safe_run crawler_class fuel crawler with
      | None => None
      | Some (r, _) => Some r
      end
  end.

(** The [try] block of [run_crawler]. *)
Definition run_crawler_try (_crawlers : gmap string crawler_class) (fuel : nat)
    (crawler_name : string) : option (result unit) :=
  match get_crawler _crawlers crawler_name with
  | None => Some (Raise (KeyError crawler_name))
  | Some crawler_class => instantiate_and_run crawler_class fuel
  end.

(** [run_crawler]: the [except Exception] clause turns what the [try] block
    raises into [(crawler_name, False)]. *)
Definition run_crawler (_crawlers : gmap string crawler_class) (fuel : nat)
    (crawler_name : string) : option (result (string * bool)) :=
  match run_crawler_try _crawlers fuel crawler_name with
  | None => None
  | Some (Ok _) => Some (Ok (crawler_name, true))
  | Some (Raise e) =>
      if is_Exception e then Some (Ok (crawler_name, false))
      else Some (Raise e)
  end.

(** The lines [main] logs about the crawlers. *)
Inductive log_line :=
| SuccessfullyCompleted (name : string)
| FailedToComplete (name : string)
| GeneratedException (crawler : string) (e : exn)
| InvalidCrawlerName (name : string).

#[global] Instance log_line_eq_dec : EqDecision log_line.
Proof. solve_decision. Defined.

(** The [for future in as_completed(...)] loop over the finished workers. *)
Fixpoint collect (finished : list (string * result (string * bool)))
    : result (list log_line) :=
  match finished with
  | [] => Ok []
  | (crawler, outcome) :: finished =>
      let continue_with (line : log_line) :=
        match collect finished with
        | Ok lines => Ok (line :: lines)
        | Raise e => Raise e
        end in
      match outcome with
      | Ok (name, true) => continue_with (SuccessfullyCompleted name)
      | Ok (name, false) => continue_with (FailedToComplete name)
      | Raise e =>
          if is_Exception e then continue_with (GeneratedException crawler e)
          else Raise e
      end
  end.

(** One worker per submitted crawler, each running [run_crawler]. *)
Definition worker (_crawlers : gmap string crawler_class) (fuel : nat)
    (crawler : string) : option (string * result (string * bool)) :=
  match run_crawler _crawlers fuel crawler with
  | None => None
  | Some outcome => Some (crawler, outcome)
  end.

(** The [--all] branch of [main].  The pool is left only when every worker
    has finished, so one worker that never ends keeps [main] from returning
    ([None]); [completion_order] is the order in which [as_completed] hands
    the futures back, a permutation of the submitted names. *)
Definition main_all (_crawlers : gmap string crawler_class) (fuel : nat)
    (completion_order : list string) : option (result (list log_line)) :=
  match mapM (worker _crawlers fuel) completion_order with
  | None => None
  | Some finished => Some (collect finished)
  end.

(** The [--crawler] branch of [main]. *)
Definition main_single (_crawlers : gmap string crawler_class) (fuel : nat)
    (crawler : string) : option (result (list log_line)) :=
  match run_crawler _crawlers fuel crawler with
  | None => None
  | Some (Ok (crawler_name, success)) => Some (Ok [])
  | Some (Raise (KeyError _)) => Some (Ok [InvalidCrawlerName crawler])
  | Some (Raise e) => Some (Raise e)
  end.

(** The registry after the decorators [@CrawlerRegistry.register(name)] of
    the listed classes have run, the first of the list first. *)
Definition register_all (classes : list (string * crawler_class))
    : gmap string crawler_class :=
  foldl (λ _crawlers '(name, crawler_class), register name crawler_class _crawlers)
    ∅ classes.

(** The registry after [from src.platforms import *]. *)
Definition registry (westside virgio tatacliq nykaafashion inmyprime
    : crawler_class) : gmap string crawler_class :=
  register_all
    [("westside", westside); ("virgio", virgio); ("tatacliq", tatacliq);
     ("nykaafashion", nykaafashion); ("inmyprime", inmyprime)].

(** Every key is in upper case, as [register] stores it. *)
Definition keys_upper (_crawlers : gmap string crawler_class) : Prop :=
  ∀ name crawler_class,
    _crawlers !! name = Some crawler_class → upper name = name.

(** The line logged for a crawler that ran to the end, by its outcome. *)
Definition line_of (success : string → bool) (name : string) : log_line :=
  if success name then SuccessfullyCompleted name else FailedToComplete name.

(** Whether the crawler registered under [name] runs to its end. *)
Definition succeeds (_crawlers : gmap string crawler_class) (fuel : nat)
    (name : string) : bool :=
  match _crawlers !! name with
  | Some crawler_class =>
      match instantiate_and_run crawler_class fuel with
      | Some (Ok _) => true
      | _ => false
      end
  | None => false
  end.

Definition failed (line : log_line) : bool :=
  match line with
  | SuccessfullyCompleted _ => false
  | _ => true
  end.

End Main.

(* ===================================================================== *)
(** * social_scan_platforms.py *)
(* ===================================================================== *)

Module SocialScan.

(** Members of the [Platforms] enum. *)
Inductive Platforms := BOOKING | TRIVAGO.

(** [Platforms(self.__class__)], by class name: a class that is not the
    value of a member raises ValueError. *)
Definition Platforms_of (class_name : string) : result Platforms :=
  if String.eqb class_name "Booking" then Ok BOOKING
  else if String.eqb class_name "Trivago" then Ok TRIVAGO
  else Raise (ValueError "is not a valid Platforms").

Record PlatformResponse (Data : Type) := mkPlatformResponse {
  platform : Platforms;
  query : string;
  available : bool;
  valid : bool;
  success : bool;
  message : string;
  link : option string;
  data : option Data
}.
Arguments mkPlatformResponse {Data}.
Arguments platform {Data}.
Arguments query {Data}.
Arguments available {Data}.
Arguments valid {Data}.
Arguments success {Data}.
Arguments message {Data}.
Arguments link {Data}.
Arguments data {Data}.

Section Responses.
Context {Data : Type}.
(** [self.__class__.__name__] *)
Variable class_name : string.

Definition build (query : string) (available valid success : bool)
    (message : string) (link : option string) (data : option Data)
    : result (PlatformResponse Data) :=
  match Platforms_of class_name with
  | Raise e => Raise e
  | Ok platform =>
      Ok (mkPlatformResponse platform query available valid success
            message link data)
  end.

Definition response_failure (query message : string) :=
  build query false false false message None None.

Definition response_available (query message : string) :=
  build query true true true message None None.

Definition response_unavailable (query message : string)
    (link : option string) (data : option Data) :=
  build query false true true message link data.

Definition response_invalid (query message : string) :=
  build query false false true message None None.
End Responses.

(** One call of the adapter's [prerequest]: what it returns (a token, or
    None when the page holds none) or raises, and how many HTTP requests it
    sent through [self.get]. *)
Record acquisition (Token : Type) := mkAcquisition {
  outcome : result (option Token);
  requests_sent : nat
}.
Arguments mkAcquisition {Token}.
Arguments outcome {Token}.
Arguments requests_sent {Token}.

(** Instance attributes set by [PlatformChecker.__init__], and the number of
    [prerequest] calls made so far. *)
Record checker (Token : Type) := mkChecker {
  request_count : nat;
  prerequest_sent : bool;
  token : option Token;
  prerequest_calls : nat
}.
Arguments mkChecker {Token}.
Arguments request_count {Token}.
Arguments prerequest_sent {Token}.
Arguments token {Token}.
Arguments prerequest_calls {Token}.

Section TokenCache.
Context {Token : Type}.
(** [prerequest k]: what the [k]-th call (from 0) of the adapter's
    [prerequest] does. *)
Variable prerequest : nat → acquisition Token.

Definition init : checker Token :=
  {| request_count := 0; prerequest_sent := false; token := None;
     prerequest_calls := 0 |}.

Definition get_token (self : checker Token) : result Token * checker Token :=
  if prerequest_sent self then
    match token self with
    | None => (Raise (QueryError TokenErrorMessage), self)
    | Some t => (Ok t, self)
    end
  else
    let call := prerequest (prerequest_calls self) in
    let self :=
      {| request_count := request_count self + requests_sent call;
         prerequest_sent := prerequest_sent self;
         token := token self;
         prerequest_calls := S (prerequest_calls self) |} in
    match outcome call with
    | Raise e => (Raise e, self)
    | Ok tok =>
        let self :=
          {| request_count := request_count self;
             prerequest_sent := true;
             token := tok;
             prerequest_calls := prerequest_calls self |} in
        match token self with
        | None => (Raise (QueryError TokenErrorMessage), self)
        | Some t => (Ok t, self)
        end
    end.

(** [n] calls of [get_token] one after the other: the outcomes, in call
    order, and the instance after the last call. *)
Fixpoint get_token_times (n : nat) (self : checker Token)
    : list (result Token) * checker Token :=
  match n with
  | O => ([], self)
  | S n =>
      let (r, self) := get_token self in
      let (rs, self) := get_token_times n self in
      (r :: rs, self)
  end.
End TokenCache.

(* --------------------------------------------------------------------- *)
(** ** response_unavailable_or_invalid *)

(** [x in message] on strings. *)
Fixpoint contains (x message : string) : bool :=
  String.prefix x message
  || match message with
     | EmptyString => false
     | String _ rest => contains x rest
     end.

Section Classify.
Context {Data : Type}.
Variable class_name : string.

Definition response_unavailable_or_invalid (query message : string)
    (unavailable_messages : list string) (link : option string)
    : result (PlatformResponse Data) :=
  if existsb (λ x, contains x message) unavailable_messages
  then response_unavailable class_name query message link None
  else response_invalid class_name query message.
End Classify.

(* --------------------------------------------------------------------- *)
(** ** PlatformChecker._request *)

Definition DEFAULT_HEADERS : gmap string string :=
  {[ "User-Agent" := "Mozilla/5.0 (Windows NT 10.0; Win64; x64) AppleWebKit/537.36 (KHTML, like Gecko) Chrome/85.0.4183.121 Safari/537.36" ]}.

Section CheckerRequest.
Context {Token Proxy : Type}.
(** [self.proxy_list] *)
Variable proxy_list : list Proxy.

(** [self.proxy_list[self.request_count % len(self.proxy_list)] if
    self.proxy_list else None]; an index out of range would raise
    IndexError. *)
Definition select_proxy (request_count : nat) : result (option Proxy) :=
  match proxy_list with
  | [] => Ok None
  | _ =>
      match proxy_list !! (request_count mod length proxy_list) with
      | Some proxy => Ok (Some proxy)
      | None => Raise (RuntimeError "IndexError: list index out of range")
      end
  end.

(** [_request] up to the call of [session.request]: the proxy picked and
    the headers handed on stand for the response.  The proxy is bound to a
    local name only; it is not among the arguments of [session.request]. *)
Definition _request (headers : option (gmap string string))
    (self : checker Token)
    : result (option Proxy * gmap string string) * checker Token :=
  match select_proxy (request_count self) with
  | Raise e => (Raise e, self)
  | Ok proxy =>
      let self :=
        {| request_count := request_count self + 1;
           prerequest_sent := prerequest_sent self;
           token := token self;
           prerequest_calls := prerequest_calls self |} in
      let headers :=
        match headers with
        | Some headers => DEFAULT_HEADERS ∪ headers
        | None => DEFAULT_HEADERS
        end in
      (Ok (proxy, headers), self)
  end.

(** The proxies picked by [n] requests sent one after the other. *)
Fixpoint proxies_of_requests (n : nat) (self : checker Token)
    : list (result (option Proxy)) :=
  match n with
  | O => []
  | S n =>
      match _request None self with
      | (Ok (proxy, _), self) => Ok proxy :: proxies_of_requests n self
      | (Raise e, self) => Raise e :: proxies_of_requests n self
      end
  end.
End CheckerRequest.

End SocialScan.

(* ===================================================================== *)
(** * social_scan_utils.py *)
(* ===================================================================== *)

Module Utils.
Import SocialScan.

Section Query.
Context {Data Token : Type}.
(** [EMAIL_REGEX.match(query_)] as a truth value. *)
Variable EMAIL_REGEX_match : string → bool.
(** [check_email] of the class of a platform, [None] when the class has no
    such attribute; the method runs on the checker instance, which it may
    change. *)
Variable check_email :
  Platforms → option (checker Token → string →
                      result (option (PlatformResponse Data)) * checker Token).

(** The dict [checkers], from platform to checker instance. *)
Definition checkers_dict : Type := Platforms → option (checker Token).

Definition Platforms_eqb (p q : Platforms) : bool :=
  match p, q with
  | BOOKING, BOOKING | TRIVAGO, TRIVAGO => true
  | _, _ => false
  end.

Definition set_checker (platform : Platforms) (self : checker Token)
    (checkers : checkers_dict) : checkers_dict :=
  λ p, if Platforms_eqb p platform then Some self else checkers p.

(** The record built by the [except] clause of [query]. *)
Definition failure (platform : Platforms) (query_ : string)
    : PlatformResponse Data :=
  mkPlatformResponse platform query_ false false false "" None None.

(** [query]: [Ok None] is the implicit [return None] reached when the query
    is not an e-mail address or the class has no [check_email].  The
    [QueryError] raised for a [None] response and the [KeyError] of
    [checkers[platform]] are caught by the [except] clause like every other
    Exception. *)
Definition query (query_ : string) (platform : Platforms)
    (checkers : checkers_dict)
    : result (option (PlatformResponse Data)) * checkers_dict :=
  if EMAIL_REGEX_match query_ then
    match check_email platform with
    | None => (Ok None, checkers)
    | Some method =>
        match checkers platform with
        | None => (Ok (Some (failure platform query_)), checkers)
        | Some self =>
            match method self query_ with
            | (Ok (Some response), self) =>
                (Ok (Some response), set_checker platform self checkers)
            | (Ok None, self) =>
                (Ok (Some (failure platform query_)),
                 set_checker platform self checkers)
            | (Raise e, self) =>
                if is_Exception e
                then (Ok (Some (failure platform query_)),
                      set_checker platform self checkers)
                else (Raise e, set_checker platform self checkers)
            end
        end
    end
  else (Ok None, checkers).

(** [init_checkers]: the loop stores a fresh checker under each listed
    platform. *)
Definition init_checkers (platforms : list Platforms) : checkers_dict :=
  foldl (λ checkers platform, set_checker platform init checkers)
    (λ _, None) platforms.

(** The query tasks, one per listed platform, run in list order. *)
Fixpoint run_queries (queries : string) (platforms : list Platforms)
    (checkers : checkers_dict)
    : list (result (option (PlatformResponse Data))) :=
  match platforms with
  | [] => []
  | platform :: platforms =>
      let (r, checkers) := query queries platform checkers in
      r :: run_queries queries platforms checkers
  end.

(** [execute_queries]: [gather(..., return_exceptions=True)] keeps an
    exception as a result; [None] results are dropped. *)
Definition execute_queries (queries : string) (platforms : list Platforms)
    : list (result (PlatformResponse Data)) :=
  omap (λ r, match r with
             | Ok None => None
             | Ok (Some response) => Some (Ok response)
             | Raise e => Some (Raise e)
             end)
    (run_queries queries platforms (init_checkers platforms)).
End Query.

End Utils.

(* ===================================================================== *)
(** * src/platforms/tatacliq.py: the page loop *)
(* ===================================================================== *)

Module TataCliqSearch.
Import Base.

(** An entry of "searchresult", read with [product.get(key, "")]. *)
Record item := mkItem {
  productId : option string;
  webURL : option string;
  productname : option string
}.

(** The part of the search JSON the crawler reads: the value under "error",
    the list under "searchresult", and [pagination["totalPages"]] ([None]
    when one of the two keys is missing). *)
Record body := mkBody {
  error : option string;
  searchresult : option (list item);
  totalPages : option Z
}.

Definition base_url : string := "https://www.tatacliq.com/".

(** [s.lstrip("/")] *)
Fixpoint lstrip_slash (s : string) : string :=
  match s with
  | String c s' => if Ascii.eqb c "/" then lstrip_slash s' else s
  | EmptyString => EmptyString
  end.

Definition parse_item (product : item) : Product :=
  let product_id := default "" (productId product) in
  let product_url := lstrip_slash (default "" (webURL product)) in
  let product_url :=
    if Virgio.nonempty product_url then base_url +:+ product_url else "" in
  {| product_id := product_id;
     product_name := default "" (productname product);
     product_url := product_url |}.

Definition parse_data (products : list item) : M unit :=
  modify (concat_rows (parse_item <$> products)).

Definition check_error (response : Response body) : result bool :=
  match get_json response with
  | Raise e => Raise e
  | Ok json_body =>
      match error json_body with
      | Some msg => Ok (Virgio.nonempty msg)
      | None => Ok false
      end
  end.

Section Crawler.
Variable project_dir : string.
Variable world : env body.

Definition cfg : config := TataCliq.cfg project_dir.

(** [crawl], with [self.total_pages] passed in and out: the second
    component is its value after the call. *)
Definition crawl (total_pages : Z) : M (bool * Z) :=
  let! r := get cfg world check_error in
  let! product_data := lift (get_json r) in
  match searchresult product_data with
  | Some (p :: ps) =>
      step! parse_data (p :: ps) in
      let! total_pages := lift (Virgio.getitem "totalPages" (totalPages product_data)) in
      ret (true, total_pages)
  | _ => ret (false, total_pages)
  end.

(** The [while page_number <= self.total_pages] loop of [run] followed by
    [output_data]; [None] when [fuel] pages do not end it. *)
Fixpoint run_loop (fuel : nat) (page_number total_pages : Z) (s : crawler)
    : option (result unit * crawler) :=
  if (page_number <=? total_pages)%Z then
    match fuel with
    | O => None
    | S fuel =>
        let s := set_param "page" (pretty page_number) s in
        match crawl total_pages s with
        | (Raise e, s) => Some (Raise e, s)
        | (Ok (false, _), s) => Some (Ok tt, output_data cfg world s)
        | (Ok (true, total_pages), s) =>
            run_loop fuel (page_number + 1) total_pages
              (sleep (DInt (DELAY cfg)) s)
        end
    end
  else Some (Ok tt, output_data cfg world s).

(** [run]: [page_number = 0], and [self.total_pages = 100] from
    [__init__]. *)
Definition run (fuel : nat) (s : crawler) : option (result unit * crawler) :=
  run_loop fuel 0 100 s.

Definition initial_params : gmap string string :=
  {[ "searchText" := ":relevance:category:MSH1116100:inStockFlag:true";
     "isKeywordRedirect" := "true"; "isKeywordRedirectEnabled" := "true";
     "channel" := "WEB"; "isMDE" := "true"; "isTextSearch" := "false";
     "isFilter" := "false"; "qc" := "false"; "isSuggested" := "false";
     "isPwa" := "true"; "pageSize" := "200"; "typeID" := "all" ]}.

Definition new : crawler := init initial_params.
End Crawler.

End TataCliqSearch.

(* ===================================================================== *)
(** * Concrete worlds used to exercise the definitions *)
(* ===================================================================== *)

Module Scenarios.
Import Base.

(** A minimal adapter: the body of a response is the verdict that its
    [check_error] returns. *)
Definition flagged_check_error (response : Response bool) : result bool :=
  Ok (default false (json response)).

Definition default_cfg : config :=
  {| platform_name := "Test"; OUTPUT_FOLDER := "output";
     DELAY := 2; MAX_RETRIES := 3; USER_AGENT_ROTATION := false |}.

Definition json_response {Body} (b : Body) : Response Body :=
  {| content_type := Some "application/json"; json := Some b |}.

Definition html_response {Body} : Response Body :=
  {| content_type := Some "text/html"; json := None |}.

Definition timestamp : nat → string := λ _, "20250101_000000".

(** Every response is an error. *)
Definition always_error : env bool :=
  {| http := λ _ _, Responds (json_response true);
     random := λ _, 0%Q; now := timestamp |}.

(** Attempt 1 is answered with an error, attempt 2 times out, every later
    attempt is answered properly. *)
Definition third_time_lucky : env bool :=
  {| http := λ n _,
       match n with
       | 1 => Responds (json_response true)
       | 2 => Fails (RequestException "Timeout")
       | _ => Responds (json_response false)
       end;
     random := λ _, (1 # 4)%Q; now := timestamp |}.

(** A site that answers every request with an HTML page. *)
Definition rate_limited {Body} : env Body :=
  {| http := λ _ _, Responds html_response;
     random := λ _, 0%Q; now := timestamp |}.

(** A page of the Virgio listing. *)
Definition listing (products : list Virgio.node) (more : bool) (cursor : string)
    : Virgio.body :=
  {| Virgio.collection_products :=
       Some {| Virgio.nodes := Some products;
               Virgio.pageInfo :=
                 Some {| Virgio.hasNextPage := more;
                         Virgio.endCursor := cursor |} |} |}.

Definition shirt : Virgio.node :=
  {| Virgio.id := Some "gid://shopify/Product/1";
     Virgio.handle := Some "linen-shirt"; Virgio.title := Some "Linen Shirt" |}.
Definition dress : Virgio.node :=
  {| Virgio.id := Some "gid://shopify/Product/2";
     Virgio.handle := Some "wrap-dress"; Virgio.title := Some "Wrap Dress" |}.
Definition skirt : Virgio.node :=
  {| Virgio.id := Some "gid://shopify/Product/3";
     Virgio.handle := Some "midi-skirt"; Virgio.title := Some "Midi Skirt" |}.

(** Three products served in two overlapping pages, then an empty page;
    the page depends on the cursor sent. *)
Definition three_pages : env Virgio.body :=
  {| http := λ _ p,
       match p !! "cursor" with
       | None => Responds (json_response (listing [shirt; dress] true "c1"))
       | Some c =>
           if String.eqb c "c1"
           then Responds (json_response (listing [dress; skirt] true "c2"))
           else Responds (json_response (listing [] false ""))
       end;
     random := λ _, (1 # 2)%Q; now := timestamp |}.

(** The dress is served again on the second page under a new title. *)
Definition dress_retitled : Virgio.node :=
  {| Virgio.id := Some "gid://shopify/Product/2";
     Virgio.handle := Some "wrap-dress";
     Virgio.title := Some "Wrap Dress (New Season)" |}.

(** The three-page site, with the second page serving the retitled dress. *)
Definition retitled_pages : env Virgio.body :=
  {| http := λ _ p,
       match p !! "cursor" with
       | None => Responds (json_response (listing [shirt; dress] true "c1"))
       | Some c =>
           if String.eqb c "c1"
           then Responds (json_response
                            (listing [dress_retitled; skirt] true "c2"))
           else Responds (json_response (listing [] false ""))
       end;
     random := λ _, (1 # 2)%Q; now := timestamp |}.

(** A listing without products. *)
Definition no_products : env Virgio.body :=
  {| http := λ _ _, Responds (json_response (listing [] false ""));
     random := λ _, 0%Q; now := timestamp |}.

(** A crawler that runs to its end without a request. *)
Definition steady : Main.crawler_class :=
  {| Main.new := Ok (init ∅);
     Main.class_safe_run := λ _ crawler, Some (Ok tt, crawler) |}.

(** Three registered crawlers: Virgio against the three-page site, a second
    instance of it against the site that answers with HTML, and [steady]. *)
Definition batch : gmap string Main.crawler_class :=
  Main.register_all
    [("virgio", Main.VirgioCrawler "/srv/crawler" three_pages);
     ("virgio-mirror", Main.VirgioCrawler "/srv/crawler" rate_limited);
     ("westside", steady)].

(** Token acquisitions: one that finds a token, one that finds none, and a
    first call that times out followed by calls that find a token. *)
Definition token_found : nat → SocialScan.acquisition string :=
  λ _, {| SocialScan.outcome := Ok (Some "csrf-1234");
          SocialScan.requests_sent := 1 |}.

Definition token_missing : nat → SocialScan.acquisition string :=
  λ _, {| SocialScan.outcome := Ok None; SocialScan.requests_sent := 1 |}.

Definition token_after_timeout : nat → SocialScan.acquisition string :=
  λ k, match k with
       | O => {| SocialScan.outcome := Raise (RequestException "Timeout");
                 SocialScan.requests_sent := 1 |}
       | S _ => {| SocialScan.outcome := Ok (Some "csrf-1234");
                   SocialScan.requests_sent := 1 |}
       end.

(** A crawler configured for five attempts, and one that may make none. *)
Definition patient_cfg : config :=
  {| platform_name := "Test"; OUTPUT_FOLDER := "output";
     DELAY := 2; MAX_RETRIES := 5; USER_AGENT_ROTATION := true |}.

Definition no_attempt_cfg : config :=
  {| platform_name := "Test"; OUTPUT_FOLDER := "output";
     DELAY := 2; MAX_RETRIES := 0; USER_AGENT_ROTATION := false |}.

(** Four timeouts, then proper answers. *)
Definition fifth_time_lucky : env bool :=
  {| http := λ n _,
       if (n <=? 4)%nat then Fails (RequestException "Timeout")
       else Responds (json_response false);
     random := λ _, (1 # 4)%Q; now := timestamp |}.

(** A site whose responses carry no Content-Type header. *)
Definition headerless {Body} : env Body :=
  {| http := λ _ _, Responds {| content_type := None; json := None |};
     random := λ _, 0%Q; now := timestamp |}.

(** Rows as a crawl accumulates them, one of them twice. *)
Definition shirt_row : Product :=
  mkProduct "1" "Linen Shirt" "https://www.virgio.com/products/linen-shirt".
Definition dress_row : Product :=
  mkProduct "2" "Wrap Dress" "https://www.virgio.com/products/wrap-dress".

Definition loaded : crawler :=
  concat_rows [shirt_row; dress_row; shirt_row] (init ∅).

(** A listing that always announces a next page. *)
Definition endless : env Virgio.body :=
  {| http := λ _ _, Responds (json_response (listing [shirt] true "next"));
     random := λ _, 0%Q; now := timestamp |}.

(** A site that serves one page and is unreachable afterwards. *)
Definition goes_down : env Virgio.body :=
  {| http := λ n _,
       match n with
       | 1 => Responds (json_response (listing [shirt; dress] true "c1"))
       | _ => Fails (RequestException "ConnectionError")
       end;
     random := λ _, 0%Q; now := timestamp |}.

(** Two pages, the second one the last ([hasNextPage] false). *)
Definition two_pages : env Virgio.body :=
  {| http := λ n _,
       match n with
       | 1 => Responds (json_response (listing [shirt; dress] true "c1"))
       | _ => Responds (json_response (listing [dress; skirt] false ""))
       end;
     random := λ _, 0%Q; now := timestamp |}.

(** A crawler class whose constructor raises, and one whose run raises. *)
Definition unbuildable : Main.crawler_class :=
  {| Main.new := Raise (ValueError "Domain must be provided.");
     Main.class_safe_run := λ _ crawler, Some (Ok tt, crawler) |}.

(** Four registered crawlers, two of which fail. *)
Definition mixed_batch : gmap string Main.crawler_class :=
  Main.register_all
    [("virgio", Main.VirgioCrawler "/srv/crawler" three_pages);
     ("virgio-mirror", Main.VirgioCrawler "/srv/crawler" rate_limited);
     ("westside", steady);
     ("nykaafashion", unbuildable)].

(** Two timeouts before the token page answers. *)
Definition token_at_third_try : nat → SocialScan.acquisition string :=
  λ k, if (k <? 2)%nat
       then {| SocialScan.outcome := Raise (RequestException "Timeout");
               SocialScan.requests_sent := 1 |}
       else {| SocialScan.outcome := Ok (Some "csrf-1234");
               SocialScan.requests_sent := 1 |}.

(** A search API with three pages of one item each that reports
    [totalPages = 2]; page numbers above 2 are answered with the last item
    again. *)
Definition search_response (name : string) : Response TataCliqSearch.body :=
  json_response
    {| TataCliqSearch.error := None;
       TataCliqSearch.searchresult :=
         Some [ {| TataCliqSearch.productId := Some name;
                   TataCliqSearch.webURL := Some ("/" +:+ name);
                   TataCliqSearch.productname := Some name |} ];
       TataCliqSearch.totalPages := Some 2%Z |}.

Definition search_site : env TataCliqSearch.body :=
  {| http := λ n _, Responds (search_response (pretty n));
     random := λ _, 0%Q; now := timestamp |}.

(** A listing whose page lacks the "pageInfo" key. *)
Definition no_page_info : env Virgio.body :=
  {| http := λ _ _,
       Responds (json_response
         {| Virgio.collection_products :=
              Some {| Virgio.nodes := Some [shirt; dress; shirt];
                      Virgio.pageInfo := None |} |});
     random := λ _, 0%Q; now := timestamp |}.

(** The crawler after its run against the three-page site. *)
Definition crawled : crawler :=
  match Virgio.run "/srv/crawler" three_pages 3 Virgio.new with
  | Some (_, s) => s
  | None => Virgio.new
  end.

End Scenarios.

(* ===================================================================== *)
(** * The request layer: termination, retry ceiling, backoff *)
(* ===================================================================== *)

Section RequestFacts.
Import Base.
Context {Body : Type}.
Variable cfg : config.
Variable world : env Body.
Variable check_error : Response Body → result bool.

Abbreviation attempt := (attempt cfg world check_error).
Abbreviation request_loop := (request_loop cfg world check_error).
Abbreviation passes := (passes cfg world check_error).
Abbreviation attempt_outcome := (attempt_outcome world check_error).
Abbreviation attempt_fails := (attempt_fails world check_error).

(** A pass that goes on has counted exactly one more failure. *)
Lemma attempt_continue retry_count s retry_count' s' :
  attempt retry_count s = (Continue retry_count', s') →
  retry_count' = (retry_count + 1)%Z.
Proof.
  unfold attempt, on_exception.
  repeat case_match; intros; simplify_eq; done.
Qed.

(** The loop ends within [MAX_RETRIES - retry_count] passes. *)
Lemma request_loop_total fuel retry_count s :
  (MAX_RETRIES cfg - retry_count ≤ Z.of_nat fuel)%Z →
  is_Some (request_loop fuel retry_count s).
Proof.
  revert retry_count s.
  induction fuel as [|fuel IH]; intros retry_count s Hfuel; simpl.
  - destruct (Z.ltb_spec retry_count (MAX_RETRIES cfg)); [lia | eauto].
  - destruct (Z.ltb_spec retry_count (MAX_RETRIES cfg)); [| eauto].
    destruct (attempt retry_count s) as [[rc'|r|e] s'] eqn:Hstep; [| eauto..].
    apply attempt_continue in Hstep as ->.
    apply IH. lia.
Qed.

(** [_request] is the loop itself: its fallback branch is dead. *)
Lemma _request_loop s :
  request_loop (Z.to_nat (MAX_RETRIES cfg)) 0 s
  = Some (_request cfg world check_error s).
Proof.
  unfold _request.
  destruct (request_loop_total (Z.to_nat (MAX_RETRIES cfg)) 0 s) as [r ->];
    [lia | done].
Qed.

(** The loop is its first [k] passes followed by the rest of the loop. *)
Lemma request_loop_passes k fuel retry_count s :
  request_loop (k + fuel) retry_count s =
  match passes k retry_count s with
  | (Continue retry_count', s') => request_loop fuel retry_count' s'
  | (Return response, s') => Some (Ok response, s')
  | (Throw e, s') => Some (Raise e, s')
  end.
Proof.
  revert retry_count s.
  induction k as [|k IH]; intros retry_count s; [done |].
  cbn [Nat.add Base.request_loop Base.passes].
  destruct (retry_count <? MAX_RETRIES cfg)%Z; [| done].
  destruct (attempt retry_count s) as [[rc'|r|e] s']; [apply IH | done..].
Qed.

(** A failing attempt that is not the last one allowed: the loop goes on
    with one more request counted and the same parameters. *)
Lemma attempt_fails_continue retry_count s :
  attempt_fails (S (request_count s)) (params s) = true →
  (retry_count + 1 < MAX_RETRIES cfg)%Z →
  ∃ s', attempt retry_count s = (Continue (retry_count + 1), s')
        ∧ request_count s' = S (request_count s)
        ∧ params s' = params s
        ∧ slept s' = slept s ++ [DInt (DELAY cfg * (retry_count + 1 + 1))].
Proof.
  unfold Base.attempt_fails, Base.attempt_outcome, Base.attempt, on_exception.
  cbn [request_count params count_request].
  intros Hfail Hlt.
  destruct (http world _ _) as [response|e].
  - destruct (check_error response) as [[]|e]; [| done |].
    + destruct (USER_AGENT_ROTATION cfg); eexists; done.
    + rewrite Hfail.
      destruct (Z.eqb_spec (retry_count + 1) (MAX_RETRIES cfg)); [lia |].
      eexists; done.
  - rewrite Hfail.
    destruct (Z.eqb_spec (retry_count + 1) (MAX_RETRIES cfg)); [lia |].
    eexists; done.
Qed.

(** While attempts keep failing below the ceiling, nothing is raised. *)
Lemma passes_all_fail k retry_count s :
  (∀ n, request_count s < n → attempt_fails n (params s) = true) →
  (retry_count + Z.of_nat k < MAX_RETRIES cfg)%Z →
  ∃ s', passes k retry_count s = (Continue (retry_count + Z.of_nat k), s')
        ∧ request_count s' = request_count s + k
        ∧ params s' = params s.
Proof.
  revert retry_count s.
  induction k as [|k IH]; intros retry_count s Hfail Hlt.
  - exists s. cbn. rewrite Z.add_0_r, Nat.add_0_r. done.
  - cbn [Base.passes].
    destruct (Z.ltb_spec retry_count (MAX_RETRIES cfg)); [| lia].
    destruct (attempt_fails_continue retry_count s) as (s1 & -> & Hcount & Hparams & _);
      [apply Hfail; lia | lia |].
    destruct (IH (retry_count + 1)%Z s1) as (s' & -> & Hcount' & Hparams').
    + intros n Hn. rewrite Hparams. apply Hfail. lia.
    + lia.
    + exists s'. split; [f_equal; f_equal; lia |]. split; [lia | congruence].
Qed.

(** The last attempt allowed, when it fails: the loop raises. *)
Lemma attempt_fails_last retry_count s :
  attempt_fails (S (request_count s)) (params s) = true →
  (retry_count + 1 = MAX_RETRIES cfg)%Z →
  ∃ s', request_loop 1 retry_count s
          = Some (Raise (match attempt_outcome (S (request_count s)) (params s) with
                         | Raise e => e
                         | Ok _ => QueryError (FailedAfter (MAX_RETRIES cfg))
                         end), s')
        ∧ request_count s' = S (request_count s).
Proof.
  unfold Base.attempt_fails, Base.attempt_outcome.
  cbn [Base.request_loop]. unfold Base.attempt, on_exception.
  cbn [request_count params count_request].
  intros Hfail Heq.
  destruct (Z.ltb_spec retry_count (MAX_RETRIES cfg)); [| lia].
  destruct (http world _ _) as [response|e].
  - destruct (check_error response) as [[]|e]; [| done |].
    + destruct (Z.ltb_spec (retry_count + 1) (MAX_RETRIES cfg)); [lia |].
      destruct (USER_AGENT_ROTATION cfg); eexists; done.
    + rewrite Hfail, Heq, Z.eqb_refl. eexists; done.
  - rewrite Hfail, Heq, Z.eqb_refl. eexists; done.
Qed.

(** C1.  When every attempt of a request fails (it is classified as an error
    by [check_error], or stopped by a transport fault or a [QueryError] that
    the loop catches), [_request] raises after exactly [MAX_RETRIES]
    attempts: [request_count] has grown by [MAX_RETRIES], and after any
    smaller number of passes the loop is still running with nothing raised.
    Classified errors and transport faults count against the same ceiling.
    What is raised is [QueryError "Failed after MAX_RETRIES attempts"] when
    the last attempt was classified as an error (in particular when all
    are), and the caught exception itself when the last attempt was stopped
    by one. *)
Theorem request_raises_after_max_retries s :
  (∀ n, request_count s < n → attempt_fails n (params s) = true) →
  let ceiling := Z.to_nat (MAX_RETRIES cfg) in
  let last := request_count s + ceiling in
  ∃ s',
    _request cfg world check_error s
      = (Raise (final_exception cfg world check_error last (params s)), s')
    ∧ request_count s' = last
    ∧ (∀ k, k < ceiling →
         ∃ s_k, passes k 0 s = (Continue (Z.of_nat k), s_k)
                ∧ request_count s_k = request_count s + k)
    ∧ (classified_as_error world check_error last (params s) = true →
       final_exception cfg world check_error last (params s)
         = QueryError (FailedAfter (MAX_RETRIES cfg))).
Proof.
  intros Hfail ceiling last.
  assert (Hprefix : ∀ k, k < ceiling →
            ∃ s_k, passes k 0 s = (Continue (Z.of_nat k), s_k)
                   ∧ request_count s_k = request_count s + k
                   ∧ params s_k = params s).
  { intros k Hk.
    destruct (passes_all_fail k 0 s Hfail) as (s_k & Hk' & ?); [lia |].
    exists s_k. rewrite Hk', Z.add_0_l. done. }
  assert (Hclassified :
            classified_as_error world check_error last (params s) = true →
            final_exception cfg world check_error last (params s)
              = QueryError (FailedAfter (MAX_RETRIES cfg))).
  { unfold Base.classified_as_error, Base.final_exception.
    destruct (Base.attempt_outcome _ _ _ _) as [[]|]; [| done..].
    by destruct (0 <? MAX_RETRIES cfg)%Z. }
  pose proof (_request_loop s) as Hloop.
  fold ceiling in Hloop.
  destruct ceiling as [|m] eqn:Hceiling.
  - exists s. split_and!; [| lia | intros; lia | done].
    cbn in Hloop. unfold Base.final_exception.
    destruct (Z.ltb_spec 0 (MAX_RETRIES cfg)); [lia |].
    congruence.
  - destruct (Hprefix m) as (s_m & Hpasses & Hcount & Hparams); [lia |].
    destruct (attempt_fails_last (Z.of_nat m) s_m) as (s' & Hlast & Hcount').
    { rewrite Hparams. apply Hfail. lia. }
    { lia. }
    exists s'.
    replace (S m) with (m + 1) in Hloop by lia.
    rewrite request_loop_passes, Hpasses, Hlast in Hloop.
    split_and!; [| lia | | done].
    + injection Hloop as <-. f_equal. f_equal.
      unfold Base.final_exception.
      destruct (Z.ltb_spec 0 (MAX_RETRIES cfg)); [| lia].
      rewrite Hparams, Hcount. subst last.
      by replace (request_count s + S m) with (S (request_count s + m)) by lia.
    + intros k Hk. destruct (Hprefix k Hk) as (s_k & ? & ? & ?). eauto.
Qed.

(** An attempt that is answered and not classified as an error: the jittered
    delay drawn for this attempt is slept and the response returned. *)
Lemma attempt_succeeds retry_count s response :
  http world (S (request_count s)) (params s) = Responds response →
  check_error response = Ok false →
  attempt retry_count s
  = (Return response,
     sleep (DFloat (jittered cfg (random world (S (request_count s)))))
       (count_request s)).
Proof.
  intros Hhttp Hcheck. unfold Base.attempt.
  cbn [request_count params count_request].
  by rewrite Hhttp, Hcheck.
Qed.

(** C8, as the code has it.  With a ceiling of 3, when attempts 1 and 2 fail
    and attempt 3 is answered and passes [check_error], [_request] returns
    the response of attempt 3 after three requests and three sleeps: the
    backoff after the failure of the attempt entered with counter value 0 is
    [DELAY * (0 + 2)], after the one entered with counter value 1 it is
    [DELAY * (1 + 2)] (the counter is incremented before the delay is
    computed), which increases for a positive [DELAY]; the third sleep is
    the jittered delay [DELAY * (0.5 + random)] drawn for attempt 3. *)
Theorem request_succeeds_on_third_attempt s response :
  MAX_RETRIES cfg = 3%Z →
  attempt_fails (request_count s + 1) (params s) = true →
  attempt_fails (request_count s + 2) (params s) = true →
  http world (request_count s + 3) (params s) = Responds response →
  check_error response = Ok false →
  ∃ s',
    _request cfg world check_error s = (Ok response, s')
    ∧ request_count s' = request_count s + 3
    ∧ slept s' = slept s ++
        [DInt (DELAY cfg * (0 + 2)); DInt (DELAY cfg * (1 + 2));
         DFloat (jittered cfg (random world (request_count s + 3)))]
    ∧ ((0 < DELAY cfg)%Z → (DELAY cfg * (0 + 2) < DELAY cfg * (1 + 2))%Z).
Proof.
  replace (request_count s + 1) with (S (request_count s)) by lia.
  replace (request_count s + 2) with (S (S (request_count s))) by lia.
  replace (request_count s + 3) with (S (S (S (request_count s)))) by lia.
  intros Hmax Hfail1 Hfail2 Hhttp Hcheck.
  destruct (attempt_fails_continue 0 s) as (s1 & Hstep1 & Hcount1 & Hparams1 & Hslept1);
    [done | lia |].
  destruct (attempt_fails_continue 1 s1) as (s2 & Hstep2 & Hcount2 & Hparams2 & Hslept2);
    [by rewrite Hcount1, Hparams1 | lia |].
  pose proof (attempt_succeeds 2 s2 response) as Hstep3.
  rewrite Hcount2, Hcount1, Hparams2, Hparams1 in Hstep3.
  specialize (Hstep3 Hhttp Hcheck).
  eexists. split_and!.
  - unfold _request. rewrite Hmax.
    change (Z.to_nat 3) with 3. cbn [Base.request_loop].
    rewrite Hmax. cbn [Z.ltb Z.compare Z.add Pos.compare Pos.compare_cont].
    change (0 + 1)%Z with 1%Z in Hstep1. rewrite Hstep1.
    change (1 + 1)%Z with 2%Z in Hstep2. rewrite Hstep2.
    rewrite Hstep3. reflexivity.
  - cbn. lia.
  - cbn [slept sleep count_request]. rewrite Hslept2, Hslept1.
    rewrite <- !app_assoc. reflexivity.
  - lia.
Qed.

(** A request answered properly at the first attempt. *)
Lemma request_first_attempt s response :
  (0 < MAX_RETRIES cfg)%Z →
  http world (S (request_count s)) (params s) = Responds response →
  check_error response = Ok false →
  _request cfg world check_error s
  = (Ok response,
     sleep (DFloat (jittered cfg (random world (S (request_count s)))))
       (count_request s)).
Proof.
  intros Hmax Hhttp Hcheck.
  pose proof (_request_loop s) as Hloop.
  destruct (Z.to_nat (MAX_RETRIES cfg)) as [|fuel] eqn:Hfuel; [lia |].
  cbn [Base.request_loop] in Hloop.
  destruct (Z.ltb_spec 0 (MAX_RETRIES cfg)); [| lia].
  rewrite (attempt_succeeds 0 s response Hhttp Hcheck) in Hloop.
  congruence.
Qed.

End RequestFacts.

(** C1 at a concrete input: three attempts, all answered with an error. *)
Lemma request_raises_after_max_retries_witness :
  ∃ s',
    Base._request Scenarios.default_cfg Scenarios.always_error
      Scenarios.flagged_check_error (Base.init ∅)
      = (Raise (QueryError (FailedAfter 3)), s')
    ∧ Base.request_count s' = 3
    ∧ (∀ k, k < 3 →
         ∃ s_k, Base.passes Scenarios.default_cfg Scenarios.always_error
                  Scenarios.flagged_check_error k 0 (Base.init ∅)
                  = (Base.Continue (Z.of_nat k), s_k)
                ∧ Base.request_count s_k = k)
    ∧ (true = true → QueryError (FailedAfter 3) = QueryError (FailedAfter 3)).
Proof.
  apply (request_raises_after_max_retries Scenarios.default_cfg
           Scenarios.always_error Scenarios.flagged_check_error (Base.init ∅)).
  intros n _. reflexivity.
Defined.

(** C8 at a concrete input: an error, a timeout, then a proper answer. *)
Lemma request_succeeds_on_third_attempt_witness :
  ∃ s',
    Base._request Scenarios.default_cfg Scenarios.third_time_lucky
      Scenarios.flagged_check_error (Base.init ∅)
      = (Ok (Scenarios.json_response false), s')
    ∧ Base.request_count s' = 3
    ∧ Base.slept s' =
        [Base.DInt 4; Base.DInt 6;
         Base.DFloat (Base.jittered Scenarios.default_cfg (1 # 4))]
    ∧ ((0 < 2)%Z → (4 < 6)%Z).
Proof.
  apply (request_succeeds_on_third_attempt Scenarios.default_cfg
           Scenarios.third_time_lucky Scenarios.flagged_check_error
           (Base.init ∅) (Scenarios.json_response false));
    reflexivity.
Defined.

(** C8 as stated fails: with the attempt counter at 0 when the first attempt
    fails, the delay slept is not [DELAY * (0 + 1) = 2] but 4. *)
Lemma first_backoff_is_not_base_delay :
  Base.slept (Base._request Scenarios.default_cfg Scenarios.third_time_lucky
                Scenarios.flagged_check_error (Base.init ∅)).2 !! 0
    = Some (Base.DInt 4)
  ∧ Base.slept (Base._request Scenarios.default_cfg Scenarios.third_time_lucky
                  Scenarios.flagged_check_error (Base.init ∅)).2 !! 0
    ≠ Some (Base.DInt (Base.DELAY Scenarios.default_cfg * (0 + 1))).
Proof. split; [reflexivity | discriminate]. Qed.

(* ===================================================================== *)
(** * The accumulator: deduplication and flush *)
(* ===================================================================== *)

Section AccumulatorFacts.
Import Base.

Lemma elem_of_drop_dups_from x seen rows :
  x ∈ drop_dups_from seen rows ↔ x ∈ rows ∧ x ∉ seen.
Proof.
  revert seen. induction rows as [|row rows IH]; intros seen; simpl.
  - set_solver.
  - case_bool_decide as Hseen.
    + rewrite IH. set_solver.
    + rewrite elem_of_cons, IH.
      destruct (decide (x = row)) as [->|]; set_solver.
Qed.

Lemma drop_dups_from_NoDup seen rows : NoDup (drop_dups_from seen rows).
Proof.
  revert seen. induction rows as [|row rows IH]; intros seen; simpl.
  - constructor.
  - case_bool_decide; [apply IH |].
    constructor; [| apply IH].
    rewrite elem_of_drop_dups_from. set_solver.
Qed.

(** What is written holds every accumulated row, once. *)
Lemma drop_duplicates_spec rows :
  NoDup (drop_duplicates rows) ∧ ∀ x, x ∈ drop_duplicates rows ↔ x ∈ rows.
Proof.
  split; [apply drop_dups_from_NoDup |].
  intros x. unfold drop_duplicates. rewrite elem_of_drop_dups_from. set_solver.
Qed.

Lemma drop_dups_from_new seen row rows :
  row ∉ seen →
  drop_dups_from seen (row :: rows) = row :: drop_dups_from (row :: seen) rows.
Proof. intros. cbn [drop_dups_from]. by rewrite bool_decide_eq_false_2. Qed.

Lemma drop_dups_from_seen seen row rows :
  row ∈ seen → drop_dups_from seen (row :: rows) = drop_dups_from seen rows.
Proof. intros. cbn [drop_dups_from]. by rewrite bool_decide_eq_true_2. Qed.

(** Rows that are distinct and not yet seen are all kept. *)
Lemma drop_dups_from_fresh seen rows :
  NoDup rows → (∀ x, x ∈ rows → x ∉ seen) → drop_dups_from seen rows = rows.
Proof.
  revert seen. induction rows as [|row rows IH]; intros seen Hnodup Hfresh;
    [done |].
  apply NoDup_cons in Hnodup as [Hrow Hnodup].
  cbn [drop_dups_from]. rewrite bool_decide_eq_false_2 by (apply Hfresh; set_solver).
  f_equal. apply IH; [done |].
  intros x Hx. rewrite elem_of_cons. intros [->|Hseen]; [done |].
  apply (Hfresh x); [set_solver | done].
Qed.

(** Two pages of two rows that share their middle row. *)
Lemma drop_duplicates_overlap (x y z : Product) :
  NoDup [x; y; z] → drop_duplicates ([x; y] ++ [y; z]) = [x; y; z].
Proof.
  intros Hnodup.
  apply NoDup_cons in Hnodup as [Hx Hnodup].
  apply NoDup_cons in Hnodup as [Hy _].
  unfold drop_duplicates. cbn [app].
  rewrite drop_dups_from_new by set_solver.
  rewrite drop_dups_from_new by set_solver.
  rewrite drop_dups_from_seen by set_solver.
  rewrite drop_dups_from_new by set_solver.
  done.
Qed.

Lemma drop_duplicates_nil_inv rows : drop_duplicates rows = [] → rows = [].
Proof. destruct rows; [done |]. unfold drop_duplicates; simpl. done. Qed.

Variable cfg : config.
Context {Body : Type}.
Variable world : env Body.

(** The flush writes at most one file, and only marks what it wrote. *)
Lemma output_data_written s :
  written (output_data cfg world s)
  = if empty (DATAFRAME s) || data_saved s then written s
    else written s ++
           [(output_file_path cfg (now world (length (written s))),
             drop_duplicates (DATAFRAME s))].
Proof. unfold output_data. by destruct (empty _ || _). Qed.

(** A second flush changes nothing. *)
Lemma output_data_idem s :
  output_data cfg world (output_data cfg world s) = output_data cfg world s.
Proof.
  unfold output_data.
  destruct (empty (DATAFRAME s) || data_saved s) eqn:Hguard.
  - by rewrite Hguard.
  - cbn [DATAFRAME data_saved]. by rewrite orb_true_r.
Qed.

(** C4, as the code has it.  Whatever state the crawl has left the crawler
    in, the output step called twice writes at most one file, and never the
    second time: the second call changes nothing.  The first call writes
    exactly when the accumulator is non-empty and not yet saved; with an
    empty accumulator neither call writes anything. *)
Theorem output_data_twice s :
  let s1 := output_data cfg world s in
  let s2 := output_data cfg world s1 in
  s2 = s1
  ∧ length (written s2) ≤ length (written s) + 1
  ∧ (length (written s2) = length (written s) + 1
     ↔ DATAFRAME s ≠ [] ∧ data_saved s = false)
  ∧ (DATAFRAME s = [] → written s2 = written s).
Proof.
  cbn zeta. rewrite !output_data_written.
  unfold output_data.
  destruct (DATAFRAME s) as [|row rows] eqn:Hdf; cbn [empty orb].
  { rewrite Hdf. cbn [empty orb]. split_and!; [done | lia | | done].
    split; [lia | intros []; done]. }
  destruct (data_saved s) eqn:Hsaved.
  { rewrite Hdf, Hsaved. cbn [empty orb].
    split_and!; [done | lia | | done]. split; [lia | intros []; done]. }
  cbn [DATAFRAME data_saved written]. rewrite orb_true_r.
  rewrite length_app. cbn [length].
  split_and!; [done | lia | | done]. split; [done | lia].
Qed.
End AccumulatorFacts.

(* ===================================================================== *)
(** * The pagination loop of the Virgio crawler *)
(* ===================================================================== *)

Section VirgioFacts.
Import Base.
Variable project_dir : string.
Variable world : env Virgio.body.

Abbreviation cfg := (Virgio.cfg project_dir).
Abbreviation crawl := (Virgio.crawl project_dir world).
Abbreviation run := (Virgio.run project_dir world).
Abbreviation jitter_of n := (DFloat (jittered cfg (random world n))).

(** A page with products: they are appended to the accumulator, and the
    cursor is advanced when the page announces a next one. *)
Lemma crawl_products s ct products more cursor :
  http world (S (request_count s)) (params s)
    = Responds {| content_type := Some ct;
                  json := Some (Scenarios.listing products more cursor) |} →
  startswith ct "application/json" = true →
  products ≠ [] →
  crawl s
  = (Ok more,
     let s := concat_rows (Virgio.parse_node <$> products)
                (sleep (jitter_of (S (request_count s))) (count_request s)) in
     if more then set_param "direction" "next" (set_param "cursor" cursor s)
     else s).
Proof.
  intros Hhttp Hct Hproducts.
  unfold Virgio.crawl, get, bind.
  rewrite (request_first_attempt cfg world Virgio.check_error s _ eq_refl Hhttp eq_refl).
  unfold lift, get_json. cbn [content_type json]. rewrite Hct.
  cbn [negb Scenarios.listing Virgio.collection_products Virgio.getitem
       Virgio.nodes Virgio.pageInfo].
  destruct products as [|n ns]; [done |].
  unfold Virgio.parse_data, modify, ret.
  cbn [Virgio.hasNextPage Virgio.endCursor].
  by destruct more.
Qed.

(** A page without products ends the crawl; nothing is accumulated. *)
Lemma crawl_no_products s ct more cursor :
  http world (S (request_count s)) (params s)
    = Responds {| content_type := Some ct;
                  json := Some (Scenarios.listing [] more cursor) |} →
  startswith ct "application/json" = true →
  crawl s
  = (Ok false, sleep (jitter_of (S (request_count s))) (count_request s)).
Proof.
  intros Hhttp Hct.
  unfold Virgio.crawl, get, bind.
  rewrite (request_first_attempt cfg world Virgio.check_error s _ eq_refl Hhttp eq_refl).
  unfold lift, get_json. cbn [content_type json]. rewrite Hct.
  reflexivity.
Qed.

(** C3.  A site that serves the pages [a, b], [b', c] and then an empty
    page, each as JSON: [run] ends normally after exactly three requests
    and flushes, once, the rows parsed from the two pages with every row
    that equals an earlier one in all three columns dropped; the flush at
    the end of [safe_run] adds nothing.  When the second page repeats the
    record of the first ([b] and [b'] parse to the same row) and the three
    records differ, what is flushed is the three records, each once, in
    order of first appearance.  Rows are compared as a whole and not by
    their id: when the four parsed rows differ, all four are flushed, even
    if [b] and [b'] carry the same id. *)
Theorem virgio_three_pages fuel ct a b b' c c1 c2 more3 c3 :
  startswith ct "application/json" = true →
  http world 1 Virgio.initial_params
    = Responds {| content_type := Some ct;
                  json := Some (Scenarios.listing [a; b] true c1) |} →
  (∀ p, p !! "cursor" = Some c1 →
        http world 2 p
        = Responds {| content_type := Some ct;
                      json := Some (Scenarios.listing [b'; c] true c2) |}) →
  (∀ p, p !! "cursor" = Some c2 →
        http world 3 p
        = Responds {| content_type := Some ct;
                      json := Some (Scenarios.listing [] more3 c3) |}) →
  3 ≤ fuel →
  let pages := Virgio.parse_node <$> [a; b; b'; c] in
  let records := drop_duplicates pages in
  ∃ s',
    run fuel Virgio.new = Some (Ok tt, s')
    ∧ safe_run cfg world run fuel Virgio.new = Some (Ok tt, s')
    ∧ request_count s' = 3
    ∧ DATAFRAME s' = records
    ∧ data_saved s' = true
    ∧ written s' = [(output_file_path cfg (now world 0), records)]
    ∧ NoDup records
    ∧ (∀ row, row ∈ records ↔ row ∈ pages)
    ∧ (Virgio.parse_node b = Virgio.parse_node b' →
       NoDup [Virgio.parse_node a; Virgio.parse_node b; Virgio.parse_node c] →
       records
       = [Virgio.parse_node a; Virgio.parse_node b; Virgio.parse_node c])
    ∧ (NoDup pages → records = pages).
Proof.
  intros Hct H1 H2 H3 Hfuel pages records.
  destruct fuel as [|[|[|fuel]]]; [lia.. |].
  assert (Hrun : ∃ s', run (S (S (S fuel))) Virgio.new = Some (Ok tt, s')
            ∧ request_count s' = 3
            ∧ DATAFRAME s' = records
            ∧ data_saved s' = true
            ∧ written s' = [(output_file_path cfg (now world 0), records)]).
  { cbn [Virgio.run].
    rewrite (crawl_products Virgio.new ct [a; b] true c1) by done.
    cbn zeta iota.
    erewrite (crawl_products _ ct [b'; c] true c2);
      [| apply H2; cbn; by simplify_map_eq | done | done].
    cbn zeta iota.
    erewrite (crawl_no_products _ ct more3 c3);
      [| apply H3; cbn; by simplify_map_eq | done].
    eexists. split; [reflexivity |].
    unfold output_data.
    cbn [DATAFRAME data_saved concat_rows sleep set_param count_request
         Virgio.new init request_count written empty orb app length].
    cbn [fmap list_fmap app empty orb].
    done. }
  destruct Hrun as (s' & Hrun & Hcount & Hdf & Hsaved & Hwritten).
  exists s'. split_and!; [done | | done | done | done | done | | | |].
  - unfold safe_run. rewrite Hrun. do 2 f_equal.
    unfold output_data. by rewrite Hsaved, orb_true_r.
  - apply drop_duplicates_spec.
  - apply drop_duplicates_spec.
  - intros Hsame Hdistinct. subst records pages.
    cbn [fmap list_fmap]. rewrite <- Hsame.
    apply (drop_duplicates_overlap _ _ _ Hdistinct).
  - intros Hdistinct. apply drop_dups_from_fresh; [done | set_solver].
Qed.
End VirgioFacts.

(** C3 at a concrete input: a shirt, a dress and a skirt, the same dress on
    both pages. *)
Lemma virgio_three_pages_witness :
  ∃ s',
    Virgio.run "/srv/crawler" Scenarios.three_pages 3 Virgio.new
      = Some (Ok tt, s')
    ∧ Base.safe_run (Virgio.cfg "/srv/crawler") Scenarios.three_pages
        (Virgio.run "/srv/crawler" Scenarios.three_pages) 3 Virgio.new
      = Some (Ok tt, s')
    ∧ Base.request_count s' = 3
    ∧ Base.DATAFRAME s'
      = [Base.mkProduct "1" "Linen Shirt" "https://www.virgio.com/products/linen-shirt";
         Base.mkProduct "2" "Wrap Dress" "https://www.virgio.com/products/wrap-dress";
         Base.mkProduct "3" "Midi Skirt" "https://www.virgio.com/products/midi-skirt"]
    ∧ Base.data_saved s' = true
    ∧ Base.written s'
      = [("/srv/crawler/output/Virgio_products_20250101_000000.csv",
          [Base.mkProduct "1" "Linen Shirt" "https://www.virgio.com/products/linen-shirt";
           Base.mkProduct "2" "Wrap Dress" "https://www.virgio.com/products/wrap-dress";
           Base.mkProduct "3" "Midi Skirt" "https://www.virgio.com/products/midi-skirt"])].
Proof.
  destruct (virgio_three_pages "/srv/crawler" Scenarios.three_pages 3
              "application/json" Scenarios.shirt Scenarios.dress Scenarios.dress
              Scenarios.skirt "c1" "c2" false "")
    as (s' & Hrun & Hsafe & Hcount & Hdf & Hsaved & Hwritten & _ & _ & Hsame & _).
  - reflexivity.
  - reflexivity.
  - intros p Hp. cbn. rewrite Hp. reflexivity.
  - intros p Hp. cbn. rewrite Hp. reflexivity.
  - lia.
  - rewrite Hsame in Hdf, Hwritten;
      [| reflexivity | apply (bool_decide_unpack _); vm_compute; exact I
       | reflexivity | apply (bool_decide_unpack _); vm_compute; exact I].
    exists s'. split_and!; [exact Hrun | exact Hsafe | exact Hcount
                            | exact Hdf | exact Hsaved | exact Hwritten].
Defined.

(** C3 as stated fails when the record with id 2 is served with another
    title on the second page: the crawl still makes three requests and ends
    normally, but the flushed rows are compared as a whole, so the file
    holds two rows with the id 2. *)
Lemma virgio_flushes_same_id_twice :
  ∃ s' rows,
    Virgio.run "/srv/crawler" Scenarios.retitled_pages 3 Virgio.new
      = Some (Ok tt, s')
    ∧ Base.request_count s' = 3
    ∧ Base.written s'
      = [("/srv/crawler/output/Virgio_products_20250101_000000.csv", rows)]
    ∧ Base.product_id <$> rows = ["1"; "2"; "2"; "3"]
    ∧ rows
      = [Base.mkProduct "1" "Linen Shirt" "https://www.virgio.com/products/linen-shirt";
         Base.mkProduct "2" "Wrap Dress" "https://www.virgio.com/products/wrap-dress";
         Base.mkProduct "2" "Wrap Dress (New Season)"
           "https://www.virgio.com/products/wrap-dress";
         Base.mkProduct "3" "Midi Skirt" "https://www.virgio.com/products/midi-skirt"]
    ∧ ¬ NoDup (Base.product_id <$> rows).
Proof.
  eexists _, _. split; [vm_compute; reflexivity |].
  split_and!; [reflexivity.. |].
  cbn. rewrite !NoDup_cons. set_solver.
Qed.

(** C4 as stated fails for a crawl that found nothing: the output step is
    called by [run] and again by [safe_run], and calling it twice more
    still leaves no file written. *)
Lemma empty_crawl_writes_no_file :
  ∃ s',
    Base.safe_run (Virgio.cfg "/srv/crawler") Scenarios.no_products
      (Virgio.run "/srv/crawler" Scenarios.no_products) 1 Virgio.new
      = Some (Ok tt, s')
    ∧ Base.written
        (Base.output_data (Virgio.cfg "/srv/crawler") Scenarios.no_products
           (Base.output_data (Virgio.cfg "/srv/crawler") Scenarios.no_products s'))
      = []
    ∧ length (Base.written
        (Base.output_data (Virgio.cfg "/srv/crawler") Scenarios.no_products
           (Base.output_data (Virgio.cfg "/srv/crawler") Scenarios.no_products s')))
      ≠ 1.
Proof. eexists. split; [reflexivity |]. split; [reflexivity | discriminate]. Qed.

(* ===================================================================== *)
(** * Content-type validation and the retry path *)
(* ===================================================================== *)

(** A content type other than JSON is a classified error, whatever the
    body. *)
Lemma get_json_unexpected_content_type {Body} (request : Base.Response Body) ct :
  Base.content_type request = Some ct →
  Base.startswith ct "application/json" = false →
  Base.get_json request = Raise (QueryError (UnexpectedContentType ct)).
Proof. intros Hct Hprefix. unfold Base.get_json. by rewrite Hct, Hprefix. Qed.

(** In the Virgio crawler the check runs after [_request] has returned: the
    error leaves [crawl] after a single request. *)
Lemma virgio_crawl_unexpected_content_type project_dir world s response ct :
  Base.http world (S (Base.request_count s)) (Base.params s)
    = Base.Responds response →
  Base.content_type response = Some ct →
  Base.startswith ct "application/json" = false →
  ∃ s',
    Virgio.crawl project_dir world s
      = (Raise (QueryError (UnexpectedContentType ct)), s')
    ∧ Base.request_count s' = S (Base.request_count s)
    ∧ Base.slept s'
      = Base.slept s ++
          [Base.DFloat (Base.jittered (Virgio.cfg project_dir)
                          (Base.random world (S (Base.request_count s))))].
Proof.
  intros Hhttp Hct Hprefix.
  unfold Virgio.crawl, Base.get, Base.bind.
  rewrite (request_first_attempt (Virgio.cfg project_dir) world
             Virgio.check_error s _ eq_refl Hhttp eq_refl).
  unfold Base.lift.
  rewrite (get_json_unexpected_content_type response ct Hct Hprefix).
  eexists. split; [reflexivity |]. done.
Qed.

(** In the TataCliq crawler [check_error] decodes the response inside the
    loop: the same error is caught there and counts as a failed attempt. *)
Lemma tatacliq_attempt_fails project_dir world n p response ct :
  Base.http world n p = Base.Responds response →
  Base.content_type response = Some ct →
  Base.startswith ct "application/json" = false →
  Base.attempt_fails world TataCliq.check_error n p = true
  ∧ Base.final_exception (TataCliq.cfg project_dir) world TataCliq.check_error n p
    = QueryError (UnexpectedContentType ct).
Proof.
  intros Hhttp Hct Hprefix.
  unfold Base.attempt_fails, Base.final_exception, Base.attempt_outcome.
  rewrite Hhttp. unfold TataCliq.check_error.
  rewrite (get_json_unexpected_content_type response ct Hct Hprefix).
  done.
Qed.

(** C7 at the failing input: a site that answers every request with an HTML
    page.  The Virgio crawler makes one request, sleeps no backoff, and the
    [QueryError] leaves [crawl], [run] and [safe_run] at once, so that
    [run_crawler] reports the crawler as failed; the TataCliq request layer,
    given the same answers, retries up to the ceiling of three requests with
    two backoff sleeps before it raises the same error. *)
Theorem virgio_content_type_error_is_not_retried (fuel : nat) :
  let html := QueryError (UnexpectedContentType "text/html") in
  (∃ s',
     Virgio.crawl "/srv/crawler" Scenarios.rate_limited Virgio.new
       = (Raise html, s')
     ∧ Base.request_count s' = 1
     ∧ Base.slept s' = [Base.DFloat (Base.jittered (Virgio.cfg "/srv/crawler") 0)]
     ∧ Virgio.run "/srv/crawler" Scenarios.rate_limited (S fuel) Virgio.new
       = Some (Raise html, s')
     ∧ Base.safe_run (Virgio.cfg "/srv/crawler")
         (Scenarios.rate_limited (Body := Virgio.body))
         (Virgio.run "/srv/crawler" Scenarios.rate_limited) (S fuel) Virgio.new
       = Some (Raise html, s'))
  ∧ Main.run_crawler
      (Main.register_all
         [("virgio", Main.VirgioCrawler "/srv/crawler" Scenarios.rate_limited)])
      (S fuel) "virgio"
    = Some (Ok ("virgio", false))
  ∧ (∃ s',
       Base._request (TataCliq.cfg "/srv/crawler") Scenarios.rate_limited
         TataCliq.check_error (Base.init ∅)
         = (Raise html, s')
       ∧ Base.request_count s' = 3
       ∧ Base.slept s' = [Base.DInt 4; Base.DInt 6]).
Proof.
  split_and!.
  - eexists. split_and!; reflexivity.
  - reflexivity.
  - eexists. split_and!; reflexivity.
Qed.

(* ===================================================================== *)
(** * Only the output step writes *)
(* ===================================================================== *)

Section FlushFacts.
Import Base.

Lemma attempt_same_output {Body} cfg (world : env Body) check_error retry_count s :
  same_output s (attempt cfg world check_error retry_count s).2.
Proof.
  unfold attempt, on_exception. repeat case_match; done.
Qed.

Lemma request_loop_same_output {Body} cfg (world : env Body) check_error
    fuel retry_count s r s' :
  request_loop cfg world check_error fuel retry_count s = Some (r, s') →
  same_output s s'.
Proof.
  revert retry_count s.
  induction fuel as [|fuel IH]; intros retry_count s; cbn [request_loop];
    destruct (retry_count <? MAX_RETRIES cfg)%Z; try by intros [= <- <-].
  pose proof (attempt_same_output cfg world check_error retry_count s) as [Hw Hs].
  destruct (attempt _ _ _ _ _) as [[rc'|response|e] s1]; cbn [snd] in *.
  - intros Hloop. destruct (IH _ _ Hloop) as [Hw' Hs'].
    split; congruence.
  - by intros [= <- <-].
  - by intros [= <- <-].
Qed.

Lemma _request_same_output {Body} cfg (world : env Body) check_error s :
  same_output s (_request cfg world check_error s).2.
Proof.
  pose proof (_request_loop cfg world check_error s) as Hloop.
  destruct (_request cfg world check_error s) as [r s'].
  by apply request_loop_same_output in Hloop.
Qed.

Variable project_dir : string.
Variable world : env Virgio.body.

Lemma virgio_crawl_same_output s :
  same_output s (Virgio.crawl project_dir world s).2.
Proof.
  unfold Virgio.crawl, get, bind, lift, ret, Virgio.parse_data, modify.
  pose proof (_request_same_output (Virgio.cfg project_dir) world
                Virgio.check_error s) as Hreq.
  destruct (_request _ _ _ s) as [[response|e] s1]; cbn [snd] in *; [| done].
  destruct Hreq as [Hw Hs].
  repeat case_match; simplify_eq; cbn [snd]; split; done.
Qed.

(** A crawl that has written nothing ends with at most one file written,
    and leaves nothing for a later flush to do when it ends normally. *)
Lemma virgio_run_flush fuel s r s' :
  written s = [] → data_saved s = false →
  Virgio.run project_dir world fuel s = Some (r, s') →
  length (written s') ≤ 1
  ∧ (r = Ok tt → output_data (Virgio.cfg project_dir) world s' = s')
  ∧ (r ≠ Ok tt → written s' = [] ∧ data_saved s' = false).
Proof.
  revert s. induction fuel as [|fuel IH]; intros s Hw Hs; [done |].
  cbn [Virgio.run].
  pose proof (virgio_crawl_same_output s) as [Hw1 Hs1].
  destruct (Virgio.crawl project_dir world s) as [[[]|e] s1]; cbn [snd] in *.
  - apply IH; cbn; congruence.
  - intros [= <- <-].
    pose proof (output_data_idem (Virgio.cfg project_dir) world s1) as Hidem.
    split_and!; [| done | done].
    rewrite output_data_written. case_match; rewrite ?length_app, Hw1, Hw; cbn; lia.
  - intros [= <- <-]. split_and!; [rewrite Hw1, Hw; cbn; lia | done |].
    intros _. split; congruence.
Qed.

(** X26.  Flush on exit for the Virgio crawler: however [run] ends, [safe_run]
    leaves at most one file written, and any further call of the output
    step changes nothing. *)
Lemma virgio_safe_run_flushes_at_most_once fuel r s' :
  safe_run (Virgio.cfg project_dir) world (Virgio.run project_dir world) fuel
    Virgio.new = Some (r, s') →
  length (written s') ≤ 1
  ∧ output_data (Virgio.cfg project_dir) world s' = s'.
Proof.
  unfold safe_run.
  destruct (Virgio.run project_dir world fuel Virgio.new) as [[r1 s1]|] eqn:Hrun;
    [| done].
  intros [= <- <-].
  apply virgio_run_flush in Hrun as (Hlen & Hok & Hraise); [| done..].
  pose proof (output_data_idem (Virgio.cfg project_dir) world s1) as Hidem.
  split; [| done].
  destruct r1 as [[]|e].
  - by rewrite (Hok eq_refl).
  - destruct Hraise as [Hw Hs]; [done |].
    rewrite output_data_written, Hw, Hs, orb_false_r.
    case_match; cbn; lia.
Qed.
End FlushFacts.

(* ===================================================================== *)
(** * The registry and the orchestrator *)
(* ===================================================================== *)

Section OrchestratorFacts.
Import Base Main.

Lemma upper_ascii_idemp c : upper_ascii (upper_ascii c) = upper_ascii c.
Proof. destruct c as [[] [] [] [] [] [] [] []]; reflexivity. Qed.

Lemma upper_idemp name : upper (upper name) = upper name.
Proof.
  induction name as [|c name IH]; [done |].
  cbn [upper]. by rewrite upper_ascii_idemp, IH.
Qed.

(** Names are resolved without regard to case: a class registered under one
    spelling is found under every spelling with the same upper-case form. *)
Lemma get_crawler_case_insensitive {Class} (reg : gmap string Class) name name' cls :
  upper name = upper name' →
  get_crawler (register name cls reg) name' = Some cls.
Proof.
  intros Heq. unfold get_crawler, register. rewrite Heq.
  apply lookup_insert_eq.
Qed.

Lemma get_crawler_other {Class} (reg : gmap string Class) name name' cls :
  upper name ≠ upper name' →
  get_crawler (register name cls reg) name' = get_crawler reg name'.
Proof. intros. unfold get_crawler, register. by apply lookup_insert_ne. Qed.

Lemma keys_upper_empty : keys_upper ∅.
Proof. intros name cls. by rewrite lookup_empty. Qed.

Lemma keys_upper_register reg name cls :
  keys_upper reg → keys_upper (register name cls reg).
Proof.
  intros Hreg name' cls'. unfold register.
  rewrite lookup_insert. case_decide as Hname.
  - intros _. subst name'. apply upper_idemp.
  - apply Hreg.
Qed.

Lemma keys_upper_register_all classes : keys_upper (register_all classes).
Proof.
  unfold register_all.
  assert (∀ reg, keys_upper reg →
            keys_upper (foldl (λ reg '(name, cls), register name cls reg)
                          reg classes)) as Hfold.
  { induction classes as [|[name cls] classes IH]; intros reg Hreg; [done |].
    cbn [foldl]. apply IH. by apply keys_upper_register. }
  apply Hfold, keys_upper_empty.
Qed.

(** The names [main] submits are the keys of the registry, each once. *)
Lemma available_crawlers_spec (reg : gmap string crawler_class) name :
  name ∈ available_crawlers reg ↔ is_Some (reg !! name).
Proof.
  unfold available_crawlers. rewrite list_elem_of_fmap. split.
  - intros ([k cls] & -> & Hin). apply elem_of_map_to_list in Hin. eauto.
  - intros [cls Hcls]. exists (name, cls). split; [done |].
    by apply elem_of_map_to_list.
Qed.

Lemma available_crawlers_NoDup (reg : gmap string crawler_class) :
  NoDup (available_crawlers reg).
Proof. apply NoDup_fst_map_to_list. Qed.

(** [run_crawler] turns an unregistered name into an ordinary failure. *)
Lemma run_crawler_unregistered reg fuel name :
  get_crawler reg name = None →
  run_crawler reg fuel name = Some (Ok (name, false)).
Proof. intros Hnone. unfold run_crawler, run_crawler_try. by rewrite Hnone. Qed.

(** Nothing that [except Exception] catches leaves [run_crawler]. *)
Lemma run_crawler_raises reg fuel name e :
  run_crawler reg fuel name = Some (Raise e) → is_Exception e = false.
Proof.
  unfold run_crawler.
  destruct (run_crawler_try reg fuel name) as [[|e']|]; [done | | done].
  destruct (is_Exception e') eqn:He; [done |]. by intros [= <-].
Qed.

(** The [except KeyError] branch of [main] is never taken. *)
Lemma main_single_never_reports_invalid_name reg fuel name :
  main_single reg fuel name ≠ Some (Ok [InvalidCrawlerName name]).
Proof.
  unfold main_single.
  destruct (run_crawler reg fuel name) as [[[? ?]|e]|] eqn:Hrun; [done | | done].
  apply run_crawler_raises in Hrun. by destruct e.
Qed.

(** C9 at the failing input: "amazon" names none of the five registered
    crawlers.  The KeyError raised for it is caught inside [run_crawler],
    which returns the ordinary failure outcome [("amazon", False)]; [main]
    receives no exception and logs no invalid-name line. *)
Theorem unknown_crawler_is_an_ordinary_failure
    (westside virgio tatacliq nykaafashion inmyprime : crawler_class) fuel :
  get_crawler (registry westside virgio tatacliq nykaafashion inmyprime) "amazon"
    = None
  ∧ run_crawler_try (registry westside virgio tatacliq nykaafashion inmyprime)
      fuel "amazon"
    = Some (Raise (KeyError "amazon"))
  ∧ run_crawler (registry westside virgio tatacliq nykaafashion inmyprime)
      fuel "amazon"
    = Some (Ok ("amazon", false))
  ∧ main_single (registry westside virgio tatacliq nykaafashion inmyprime)
      fuel "amazon"
    = Some (Ok []).
Proof.
  assert (get_crawler (registry westside virgio tatacliq nykaafashion inmyprime)
            "amazon" = None) as Hnone.
  { unfold registry, register_all. cbn [foldl].
    rewrite !get_crawler_other by (cbn; discriminate).
    apply lookup_empty. }
  split_and!; [done | | |].
  - unfold run_crawler_try. by rewrite Hnone.
  - by apply run_crawler_unregistered.
  - unfold main_single. by rewrite run_crawler_unregistered.
Qed.
End OrchestratorFacts.

Section BatchFacts.
Import Base Main.
Variable reg : gmap string crawler_class.
Variable fuel : nat.

(** When every submitted worker ends with an outcome, [main] logs one line
    per worker, in completion order. *)
Lemma main_all_outcomes (success : string → bool) order :
  (∀ name, name ∈ order →
     run_crawler reg fuel name = Some (Ok (name, success name))) →
  main_all reg fuel order = Some (Ok (line_of success <$> order)).
Proof.
  unfold main_all. induction order as [|name order IH]; intros Hrun; [done |].
  cbn [mapM].
  assert (worker reg fuel name = Some (name, Ok (name, success name))) as ->.
  { unfold worker. rewrite Hrun; [done | set_solver]. }
  cbn [mbind option_bind].
  specialize (IH (λ n Hn, Hrun n (list_elem_of_further _ _ _ Hn))).
  destruct (mapM (worker reg fuel) order) as [finished|]; [| done].
  cbn [mbind option_bind mret option_ret collect fmap list_fmap].
  injection IH as ->.
  unfold line_of. by destruct (success name).
Qed.

(** [main] returns only when every submitted worker has ended, however
    many steps the workers are given. *)
Lemma main_all_waits_for_every_worker steps order lines :
  main_all reg steps order = Some lines →
  ∀ name, name ∈ order → is_Some (run_crawler reg steps name).
Proof.
  unfold main_all.
  destruct (mapM (worker reg steps) order) as [finished|] eqn:Hfinished; [| done].
  intros _ name Hname.
  apply mapM_Some_1 in Hfinished.
  apply list_elem_of_lookup in Hname as [i Hi].
  destruct (Forall2_lookup_l _ _ _ _ _ Hfinished Hi) as (outcome & _ & Hworker).
  unfold worker in Hworker. by destruct (run_crawler reg steps name).
Qed.

(** Exactly one name of a duplicate-free list is the failing one. *)
Lemma one_failed_line (bad : string) order :
  NoDup order → bad ∈ order →
  length (filter (λ line, failed line = true)
            (line_of (λ name, bool_decide (name ≠ bad)) <$> order)) = 1.
Proof.
  assert (∀ name, name ≠ bad →
            line_of (λ name, bool_decide (name ≠ bad)) name
            = SuccessfullyCompleted name) as Hgood.
  { intros name Hne. unfold line_of. by rewrite bool_decide_eq_true_2. }
  assert (line_of (λ name, bool_decide (name ≠ bad)) bad = FailedToComplete bad)
    as Hfailed.
  { unfold line_of. by rewrite bool_decide_eq_false_2 by naive_solver. }
  assert (∀ l : list string, bad ∉ l →
            filter (λ line, failed line = true)
              (line_of (λ name, bool_decide (name ≠ bad)) <$> l) = []) as Hnone.
  { induction l as [|name l IH]; intros Hbad; [done |].
    cbn [fmap list_fmap]. rewrite filter_cons, Hgood by set_solver.
    cbn [failed]. rewrite decide_False by done. apply IH. set_solver. }
  induction order as [|name order IH]; intros Hnodup Hbad; [set_solver |].
  apply NoDup_cons in Hnodup as [Hname Hnodup].
  cbn [fmap list_fmap]. rewrite filter_cons.
  destruct (decide (name = bad)) as [->|Hne].
  - rewrite Hfailed. cbn [failed]. rewrite decide_True by done.
    cbn [length]. by rewrite (Hnone order Hname).
  - rewrite Hgood by done. cbn [failed]. rewrite decide_False by done.
    apply IH; [done | set_solver].
Qed.

(** C5.  A registry filled by [register], all of whose crawlers are run,
    where the crawler [bad] raises an exception and every other crawler
    runs to its end: [main] returns with one line per registered crawler,
    the line of [bad] is the only failure and every other crawler is logged
    as successfully completed, in whatever order the workers finish; every
    worker returns its own outcome, the failing one included.  And [main]
    returns only after every submitted worker has ended: given any number
    of steps, as long as one submitted worker has not ended within them,
    [main] has not returned either. *)
Theorem one_failure_does_not_abort_the_batch (bad : string) order :
  keys_upper reg →
  order ≡ₚ available_crawlers reg →
  bad ∈ order →
  (∀ name crawler_class,
     reg !! name = Some crawler_class →
     if decide (name = bad)
     then ∃ e, instantiate_and_run crawler_class fuel = Some (Raise e)
               ∧ is_Exception e = true
     else instantiate_and_run crawler_class fuel = Some (Ok tt)) →
  ∃ lines,
    main_all reg fuel order = Some (Ok lines)
    ∧ length lines = length (available_crawlers reg)
    ∧ lines = line_of (λ name, bool_decide (name ≠ bad)) <$> order
    ∧ length (filter (λ line, failed line = true) lines) = 1
    ∧ (∀ name, name ∈ order → name ≠ bad → SuccessfullyCompleted name ∈ lines)
    ∧ FailedToComplete bad ∈ lines
    ∧ (∀ name, name ∈ order →
         run_crawler reg fuel name = Some (Ok (name, bool_decide (name ≠ bad))))
    ∧ (∀ steps outcome,
         main_all reg steps order = Some outcome →
         ∀ name, name ∈ order → is_Some (run_crawler reg steps name))
    ∧ (∀ steps name,
         name ∈ order → run_crawler reg steps name = None →
         main_all reg steps order = None).
Proof.
  intros Hupper Horder Hbad Hworkers.
  pose proof (available_crawlers_NoDup reg) as Hnodup.
  rewrite <- Horder in Hnodup.
  assert (∀ name, name ∈ order →
            run_crawler reg fuel name
            = Some (Ok (name, bool_decide (name ≠ bad)))) as Hrun; last first.
  { exists (line_of (λ name, bool_decide (name ≠ bad)) <$> order).
    split_and!.
    - by apply main_all_outcomes.
    - by rewrite length_fmap, Horder.
    - done.
    - by apply one_failed_line.
    - intros name Hname Hne. apply list_elem_of_fmap. exists name.
      split; [| done]. unfold line_of. by rewrite bool_decide_eq_true_2.
    - apply list_elem_of_fmap. exists bad.
      split; [| done]. unfold line_of.
      by rewrite bool_decide_eq_false_2 by naive_solver.
    - done.
    - intros steps outcome. apply main_all_waits_for_every_worker.
    - intros steps name Hname Hpending.
      destruct (main_all reg steps order) as [outcome|] eqn:Hmain; [| done].
      destruct (main_all_waits_for_every_worker _ _ _ Hmain name Hname)
        as [ended Hended].
      congruence. }
  intros name Hname.
  rewrite Horder in Hname.
  apply available_crawlers_spec in Hname as [cls Hcls].
  specialize (Hworkers name cls Hcls).
  unfold run_crawler, run_crawler_try, get_crawler.
  rewrite (Hupper name cls Hcls), Hcls.
  destruct (decide (name = bad)) as [->|Hne].
  - destruct Hworkers as (e & -> & ->).
    by rewrite bool_decide_eq_false_2 by naive_solver.
  - rewrite Hworkers. by rewrite bool_decide_eq_true_2.
Qed.
End BatchFacts.

(** C5 at a concrete input: of three crawlers, the one whose site answers
    with HTML raises [QueryError]; the other two complete. *)
Lemma one_failure_does_not_abort_the_batch_witness :
  ∃ lines,
    Main.main_all Scenarios.batch 3 (Base.available_crawlers Scenarios.batch)
      = Some (Ok lines)
    ∧ length lines = length (Base.available_crawlers Scenarios.batch)
    ∧ lines = Main.line_of (λ name, bool_decide (name ≠ "VIRGIO-MIRROR"))
                <$> Base.available_crawlers Scenarios.batch
    ∧ length (filter (λ line, Main.failed line = true) lines) = 1
    ∧ (∀ name, name ∈ Base.available_crawlers Scenarios.batch →
         name ≠ "VIRGIO-MIRROR" → Main.SuccessfullyCompleted name ∈ lines)
    ∧ Main.FailedToComplete "VIRGIO-MIRROR" ∈ lines
    ∧ (∀ name, name ∈ Base.available_crawlers Scenarios.batch →
         Main.run_crawler Scenarios.batch 3 name
         = Some (Ok (name, bool_decide (name ≠ "VIRGIO-MIRROR"))))
    ∧ (∀ steps outcome,
         Main.main_all Scenarios.batch steps
           (Base.available_crawlers Scenarios.batch) = Some outcome →
         ∀ name, name ∈ Base.available_crawlers Scenarios.batch →
                 is_Some (Main.run_crawler Scenarios.batch steps name))
    ∧ (∀ steps name,
         name ∈ Base.available_crawlers Scenarios.batch →
         Main.run_crawler Scenarios.batch steps name = None →
         Main.main_all Scenarios.batch steps
           (Base.available_crawlers Scenarios.batch) = None).
Proof.
  apply (one_failure_does_not_abort_the_batch Scenarios.batch 3 "VIRGIO-MIRROR"
           (Base.available_crawlers Scenarios.batch)).
  - apply keys_upper_register_all.
  - reflexivity.
  - apply available_crawlers_spec. eexists. reflexivity.
  - intros name cls. unfold Scenarios.batch, Main.register_all. cbn [foldl].
    unfold Base.register. cbn [Base.upper Base.upper_ascii].
    rewrite !lookup_insert, lookup_empty.
    repeat case_decide; simplify_eq; intros [= <-];
      first [ reflexivity | eexists; split; reflexivity ].
Defined.

(** The same batch given two steps only: the three-page crawl has not
    ended, so [main] has not returned, although the two other workers
    have ended. *)
Lemma main_all_pending_worker :
  Main.run_crawler Scenarios.batch 2 "VIRGIO" = None
  ∧ is_Some (Main.run_crawler Scenarios.batch 2 "VIRGIO-MIRROR")
  ∧ Main.main_all Scenarios.batch 2 (Base.available_crawlers Scenarios.batch)
    = None.
Proof. split_and!; [| eexists |]; vm_compute; reflexivity. Qed.

(* ===================================================================== *)
(** * The token cache and the normalized outcomes *)
(* ===================================================================== *)

Section TokenFacts.
Import SocialScan.
Context {Token : Type}.
Variable prerequest : nat → acquisition Token.

Abbreviation get_token := (get_token prerequest).
Abbreviation get_token_times := (get_token_times prerequest).

(** Once the flag is set, [get_token] only reads the cache. *)
Lemma get_token_cached self :
  prerequest_sent self = true →
  get_token self
  = (match token self with
     | Some t => Ok t
     | None => Raise (QueryError TokenErrorMessage)
     end, self).
Proof.
  intros Hsent. unfold SocialScan.get_token. rewrite Hsent.
  by destruct (token self).
Qed.

(** A call whose acquisition, if it makes one, does not raise: the flag is
    set afterwards, and at most one acquisition was made. *)
Lemma get_token_sets_flag self tok :
  outcome (prerequest (prerequest_calls self)) = Ok tok →
  prerequest_sent (get_token self).2 = true
  ∧ prerequest_calls (get_token self).2
    = (if prerequest_sent self then prerequest_calls self
       else S (prerequest_calls self))
  ∧ (prerequest_sent self = false → token (get_token self).2 = tok).
Proof.
  intros Hcall. unfold SocialScan.get_token.
  destruct (prerequest_sent self) eqn:Hsent.
  - by destruct (token self).
  - rewrite Hcall. cbn [token]. by destruct tok.
Qed.

(** C2, as the code has it.  When the acquisition made by the first call of
    [get_token], if it makes one, does not raise, the second call has the
    same outcome as the first (the identical cached token, or the token
    error both times when the acquisition found none), changes nothing in
    the instance and so sends no acquisition request; over the two calls
    [prerequest] is invoked at most once. *)
Theorem get_token_twice self tok :
  outcome (prerequest (prerequest_calls self)) = Ok tok →
  let first := get_token self in
  let second := get_token first.2 in
  second = first
  ∧ prerequest_calls second.2 ≤ S (prerequest_calls self)
  ∧ request_count second.2 = request_count first.2
  ∧ (∀ t, first.1 = Ok t → second.1 = Ok t ∧ token second.2 = Some t).
Proof.
  intros Hcall. cbn zeta.
  destruct (prerequest_sent self) eqn:Hsent.
  - rewrite (get_token_cached self Hsent). cbn [fst snd].
    rewrite (get_token_cached self Hsent). cbn [fst snd].
    split_and!; [done | lia | done |].
    intros t Ht. split; [done |]. by destruct (token self); simplify_eq.
  - assert (get_token self
            = (match tok with
               | Some t => Ok t
               | None => Raise (QueryError TokenErrorMessage)
               end,
               {| request_count :=
                    request_count self
                    + requests_sent (prerequest (prerequest_calls self));
                  prerequest_sent := true; token := tok;
                  prerequest_calls := S (prerequest_calls self) |})) as ->.
    { unfold SocialScan.get_token. rewrite Hsent, Hcall. cbn [token].
      by destruct tok. }
    cbn [fst snd]. rewrite get_token_cached by done.
    cbn [token prerequest_calls request_count snd fst].
    split_and!; [done | lia | done |].
    intros t Ht. split; [done |]. by destruct tok; simplify_eq.
Qed.

(** After a first acquisition that found no token, every call of
    [get_token] raises the token error and leaves the instance as it is. *)
Lemma get_token_times_after_none n self :
  prerequest_sent self = true → token self = None →
  get_token_times n self
  = (replicate n (Raise (QueryError TokenErrorMessage)), self).
Proof.
  intros Hsent Htoken. induction n as [|n IH]; [done |].
  cbn [SocialScan.get_token_times replicate].
  rewrite (get_token_cached self Hsent), Htoken, IH. done.
Qed.

(** C6, as the code has it.  On an instance that has not yet tried, when the
    acquisition returns none: the first call of [get_token] sets the flag,
    caches the none result and itself raises the token error; each of any
    number of later calls raises the token error again, without a new
    acquisition and without a new request. *)
Theorem get_token_none_is_terminal self n :
  prerequest_sent self = false →
  outcome (prerequest (prerequest_calls self)) = Ok None →
  let first := get_token self in
  let later := get_token_times n first.2 in
  first.1 = Raise (QueryError TokenErrorMessage)
  ∧ prerequest_sent first.2 = true
  ∧ token first.2 = None
  ∧ prerequest_calls first.2 = S (prerequest_calls self)
  ∧ later.1 = replicate n (Raise (QueryError TokenErrorMessage))
  ∧ later.2 = first.2.
Proof.
  intros Hsent Hcall first later.
  assert (first = (Raise (QueryError TokenErrorMessage),
                   {| request_count :=
                        request_count self
                        + requests_sent (prerequest (prerequest_calls self));
                      prerequest_sent := true; token := None;
                      prerequest_calls := S (prerequest_calls self) |})) as Hfirst.
  { subst first. unfold SocialScan.get_token. by rewrite Hsent, Hcall. }
  subst later. rewrite Hfirst. cbn [fst snd].
  rewrite get_token_times_after_none by done.
  done.
Qed.
End TokenFacts.

(** C2 at a concrete input: a fresh instance whose acquisition finds a
    token. *)
Lemma get_token_twice_witness :
  SocialScan.get_token Scenarios.token_found
    (SocialScan.get_token Scenarios.token_found SocialScan.init).2
    = SocialScan.get_token Scenarios.token_found SocialScan.init
  ∧ SocialScan.prerequest_calls
      (SocialScan.get_token Scenarios.token_found
         (SocialScan.get_token Scenarios.token_found SocialScan.init).2).2 ≤ 1
  ∧ SocialScan.request_count
      (SocialScan.get_token Scenarios.token_found
         (SocialScan.get_token Scenarios.token_found SocialScan.init).2).2
    = SocialScan.request_count
        (SocialScan.get_token Scenarios.token_found SocialScan.init).2
  ∧ (∀ t, (SocialScan.get_token Scenarios.token_found SocialScan.init).1 = Ok t →
       (SocialScan.get_token Scenarios.token_found
          (SocialScan.get_token Scenarios.token_found SocialScan.init).2).1 = Ok t
       ∧ SocialScan.token
           (SocialScan.get_token Scenarios.token_found
              (SocialScan.get_token Scenarios.token_found SocialScan.init).2).2
         = Some t).
Proof.
  apply (get_token_twice Scenarios.token_found SocialScan.init (Some "csrf-1234")).
  reflexivity.
Defined.

(** C2 as stated fails when the first acquisition raises: the flag stays
    unset, the second call invokes [prerequest] again, and the two calls do
    not have the same outcome. *)
Lemma get_token_reacquires_after_exception :
  (SocialScan.get_token Scenarios.token_after_timeout SocialScan.init).1
    = Raise (RequestException "Timeout")
  ∧ (SocialScan.get_token Scenarios.token_after_timeout
       (SocialScan.get_token Scenarios.token_after_timeout SocialScan.init).2).1
    = Ok "csrf-1234"
  ∧ SocialScan.prerequest_calls
      (SocialScan.get_token Scenarios.token_after_timeout
         (SocialScan.get_token Scenarios.token_after_timeout SocialScan.init).2).2
    = 2
  ∧ ¬ (SocialScan.prerequest_calls
         (SocialScan.get_token Scenarios.token_after_timeout
            (SocialScan.get_token Scenarios.token_after_timeout SocialScan.init).2).2
       ≤ 1).
Proof. split_and!; [reflexivity.. |]. cbn. lia. Qed.

(** C6 at a concrete input: a fresh instance whose acquisition finds no
    token, asked three more times. *)
Lemma get_token_none_is_terminal_witness :
  (SocialScan.get_token Scenarios.token_missing SocialScan.init).1
    = Raise (QueryError TokenErrorMessage)
  ∧ SocialScan.prerequest_sent
      (SocialScan.get_token Scenarios.token_missing SocialScan.init).2 = true
  ∧ SocialScan.token
      (SocialScan.get_token Scenarios.token_missing SocialScan.init).2 = None
  ∧ SocialScan.prerequest_calls
      (SocialScan.get_token Scenarios.token_missing SocialScan.init).2 = 1
  ∧ (SocialScan.get_token_times Scenarios.token_missing 3
       (SocialScan.get_token Scenarios.token_missing SocialScan.init).2).1
    = replicate 3 (Raise (QueryError TokenErrorMessage))
  ∧ (SocialScan.get_token_times Scenarios.token_missing 3
       (SocialScan.get_token Scenarios.token_missing SocialScan.init).2).2
    = (SocialScan.get_token Scenarios.token_missing SocialScan.init).2.
Proof.
  apply (get_token_none_is_terminal Scenarios.token_missing SocialScan.init 3);
    reflexivity.
Defined.

(** C6 as stated fails: the first call does not complete when the
    acquisition returns none, it raises the token error itself. *)
Lemma get_token_none_first_call_raises :
  completes (SocialScan.get_token Scenarios.token_missing SocialScan.init).1
    = false
  ∧ (SocialScan.get_token Scenarios.token_missing SocialScan.init).1
    = Raise (QueryError TokenErrorMessage).
Proof. split; reflexivity. Qed.

Section ResponseFacts.
Import SocialScan.
Context {Data : Type}.

(** Each constructor fixes its own triple of flags. *)
Lemma response_flags class_name query message link (data : option Data) :
  ∀ platform, Platforms_of class_name = Ok platform →
    response_available class_name query message
    = Ok (mkPlatformResponse platform query true true true message None (@None Data))
    ∧ response_unavailable class_name query message link data
      = Ok (mkPlatformResponse platform query false true true message link data)
    ∧ response_invalid class_name query message
      = Ok (mkPlatformResponse platform query false false true message None (@None Data))
    ∧ response_failure class_name query message
      = Ok (mkPlatformResponse platform query false false false message None (@None Data)).
Proof.
  intros platform Hplatform.
  unfold response_available, response_unavailable, response_invalid,
    response_failure, build.
  by rewrite Hplatform.
Qed.

(** C10.  A response built by one of the four constructors is available
    only if valid, and valid only if successful; its flags are one of the
    four triples (available, valid, success) = (true, true, true),
    (false, true, true), (false, false, true), (false, false, false). *)
Theorem response_flags_invariant class_name query message link
    (data : option Data) r response :
  r ∈ [response_available class_name query message;
       response_unavailable class_name query message link data;
       response_invalid class_name query message;
       response_failure class_name query message] →
  r = Ok response →
  (available response = true → valid response = true)
  ∧ (valid response = true → success response = true)
  ∧ (available response, valid response, success response)
    ∈ [(true, true, true); (false, true, true);
       (false, false, true); (false, false, false)].
Proof.
  intros Hr Hok.
  unfold response_available, response_unavailable, response_invalid,
    response_failure, build in Hr.
  destruct (Platforms_of class_name) as [platform|e].
  - repeat (apply elem_of_cons in Hr as [->|Hr]);
      [injection Hok as <-; cbn; split_and!; [done | done | set_solver] .. |].
    by apply elem_of_nil in Hr.
  - repeat (apply elem_of_cons in Hr as [->|Hr]); [done.. |].
    by apply elem_of_nil in Hr.
Qed.
End ResponseFacts.

(** C10 at a concrete input: the Booking checker reporting an address that
    is taken. *)
Lemma response_flags_invariant_witness :
  (false = true → true = true)
  ∧ (true = true → true = true)
  ∧ (false, true, true)
    ∈ [(true, true, true); (false, true, true);
       (false, false, true); (false, false, false)].
Proof.
  apply (response_flags_invariant (Data := string) "Booking" "jo@example.org"
           "Unavailable" (Some "https://account.booking.com") None
           (SocialScan.response_unavailable "Booking" "jo@example.org"
              "Unavailable" (Some "https://account.booking.com") None)
           (SocialScan.mkPlatformResponse SocialScan.BOOKING "jo@example.org"
              false true true "Unavailable"
              (Some "https://account.booking.com") None)).
  - apply list_elem_of_further, list_elem_of_here.
  - reflexivity.
Defined.

(* ===================================================================== *)
(** * More on the request layer *)
(* ===================================================================== *)

Section RequestMore.
Import Base.
Context {Body : Type}.
Variable cfg : config.
Variable world : env Body.
Variable check_error : Response Body → result bool.

Abbreviation backoffs_from rc k :=
  ((λ i : nat, DInt (DELAY cfg * (rc + Z.of_nat i + 2))) <$> seq 0 k).

(** [k] failing attempts below the ceiling: the loop goes on, and has slept
    one backoff per failure. *)
Lemma passes_fail_prefix k retry_count s :
  (∀ i, i < k →
     attempt_fails world check_error (request_count s + S i) (params s) = true) →
  (retry_count + Z.of_nat k < MAX_RETRIES cfg)%Z →
  ∃ s', passes cfg world check_error k retry_count s
          = (Continue (retry_count + Z.of_nat k), s')
        ∧ request_count s' = request_count s + k
        ∧ params s' = params s
        ∧ slept s' = slept s ++ backoffs_from retry_count k.
Proof.
  revert retry_count s.
  induction k as [|k IH]; intros retry_count s Hfail Hlt.
  - exists s. cbn. rewrite Z.add_0_r, Nat.add_0_r, app_nil_r. done.
  - cbn [passes].
    destruct (Z.ltb_spec retry_count (MAX_RETRIES cfg)); [| lia].
    destruct (attempt_fails_continue cfg world check_error retry_count s)
      as (s1 & -> & Hcount & Hparams & Hslept); [| lia |].
    { specialize (Hfail 0). rewrite Nat.add_1_r in Hfail. apply Hfail. lia. }
    destruct (IH (retry_count + 1)%Z s1) as (s' & -> & Hcount' & Hparams' & Hslept').
    + intros i Hi. rewrite Hparams, Hcount.
      replace (S (request_count s) + S i) with (request_count s + S (S i)) by lia.
      apply Hfail. lia.
    + lia.
    + exists s'. split_and!; [f_equal; f_equal; lia | lia | congruence |].
      rewrite Hslept', Hslept, <- app_assoc. f_equal.
      cbn [seq fmap list_fmap app]. f_equal; [f_equal; lia |].
      rewrite <- fmap_S_seq, <- list_fmap_compose.
      apply list_fmap_ext. intros ? i _. cbn. f_equal. lia.
Qed.

(** X1.  A request that succeeds at its [k+1]-th attempt, after [k] failures
    ([k] below the ceiling): the response of that attempt is returned after
    [k+1] requests, the backoffs slept are [DELAY * 2], ..., [DELAY * (k+1)]
    in this order, followed by the jittered delay drawn for the successful
    attempt. *)
Theorem request_succeeds_after_failures k s response :
  (Z.of_nat k < MAX_RETRIES cfg)%Z →
  (∀ i, i < k →
     attempt_fails world check_error (request_count s + S i) (params s) = true) →
  http world (request_count s + S k) (params s) = Responds response →
  check_error response = Ok false →
  ∃ s',
    _request cfg world check_error s = (Ok response, s')
    ∧ request_count s' = request_count s + S k
    ∧ slept s' = slept s ++ backoffs_from 0 k
                   ++ [DFloat (jittered cfg (random world (request_count s + S k)))].
Proof.
  intros Hk Hfail Hhttp Hcheck.
  destruct (passes_fail_prefix k 0 s Hfail) as (s_k & Hpasses & Hcount & Hparams & Hslept);
    [lia |].
  pose proof (_request_loop cfg world check_error s) as Hloop.
  replace (Z.to_nat (MAX_RETRIES cfg))
    with (k + S (Z.to_nat (MAX_RETRIES cfg) - S k)) in Hloop by lia.
  rewrite request_loop_passes, Hpasses in Hloop.
  cbn [request_loop] in Hloop.
  destruct (Z.ltb_spec (0 + Z.of_nat k) (MAX_RETRIES cfg)); [| lia].
  rewrite (attempt_succeeds cfg world check_error _ s_k response) in Hloop.
  - injection Hloop as <-. eexists. split_and!; [done | cbn; lia |].
    cbn [slept sleep count_request request_count]. rewrite Hslept, Hcount, <- app_assoc.
    by replace (S (request_count s + k)) with (request_count s + S k) by lia.
  - rewrite Hcount, Hparams. by replace (S (request_count s + k))
      with (request_count s + S k) by lia.
  - done.
Qed.

(** X2.  An exception that the loop does not catch (anything but
    RequestException and QueryError, raised by the transport or by
    [check_error]) ends the request at once, also after [k] failed attempts:
    it is raised unchanged, with no further request and no sleep after it. *)
Theorem request_uncaught_exception_propagates k s e :
  (Z.of_nat k < MAX_RETRIES cfg)%Z →
  (∀ i, i < k →
     attempt_fails world check_error (request_count s + S i) (params s) = true) →
  attempt_outcome world check_error (request_count s + S k) (params s) = Raise e →
  is_request_or_query_error e = false →
  ∃ s',
    _request cfg world check_error s = (Raise e, s')
    ∧ request_count s' = request_count s + S k
    ∧ slept s' = slept s ++ backoffs_from 0 k.
Proof.
  intros Hk Hfail Houtcome Huncaught.
  destruct (passes_fail_prefix k 0 s Hfail) as (s_k & Hpasses & Hcount & Hparams & Hslept);
    [lia |].
  pose proof (_request_loop cfg world check_error s) as Hloop.
  replace (Z.to_nat (MAX_RETRIES cfg))
    with (k + S (Z.to_nat (MAX_RETRIES cfg) - S k)) in Hloop by lia.
  rewrite request_loop_passes, Hpasses in Hloop.
  cbn [request_loop] in Hloop.
  destruct (Z.ltb_spec (0 + Z.of_nat k) (MAX_RETRIES cfg)); [| lia].
  assert (attempt cfg world check_error (0 + Z.of_nat k) s_k
          = (Throw e, count_request s_k)) as Hstep.
  { unfold attempt_outcome in Houtcome. unfold attempt, on_exception.
    cbn [request_count params count_request]. rewrite Hcount, Hparams.
    replace (S (request_count s + k)) with (request_count s + S k) by lia.
    destruct (http world _ _) as [response|e'].
    - rewrite Houtcome, Huncaught. done.
    - injection Houtcome as ->. by rewrite Huncaught. }
  rewrite Hstep in Hloop. injection Hloop as <-.
  eexists. split_and!; [done | cbn; lia | done].
Qed.

(** What one pass of the loop touches. *)
Lemma attempt_footprint retry_count s :
  let s' := (attempt cfg world check_error retry_count s).2 in
  DATAFRAME s' = DATAFRAME s ∧ params s' = params s
  ∧ data_saved s' = data_saved s ∧ written s' = written s
  ∧ request_count s' = S (request_count s)
  ∧ length (slept s') ≤ S (length (slept s))
  ∧ (USER_AGENT_ROTATION cfg = false → ua_updates s' = ua_updates s).
Proof.
  unfold attempt, on_exception.
  repeat case_match; cbn; rewrite ?length_app; cbn; split_and!;
    try done; try lia; congruence.
Qed.

Lemma request_loop_footprint fuel retry_count s r s' :
  request_loop cfg world check_error fuel retry_count s = Some (r, s') →
  (0 ≤ retry_count)%Z →
  DATAFRAME s' = DATAFRAME s ∧ params s' = params s
  ∧ data_saved s' = data_saved s ∧ written s' = written s
  ∧ request_count s' ≤ request_count s + Z.to_nat (MAX_RETRIES cfg - retry_count)
  ∧ length (slept s') ≤ length (slept s) + Z.to_nat (MAX_RETRIES cfg - retry_count)
  ∧ (USER_AGENT_ROTATION cfg = false → ua_updates s' = ua_updates s)
  ∧ request_count s ≤ request_count s'
  ∧ ((retry_count < MAX_RETRIES cfg)%Z → request_count s < request_count s').
Proof.
  revert retry_count s.
  induction fuel as [|fuel IH]; intros retry_count s; cbn [request_loop];
    destruct (Z.ltb_spec retry_count (MAX_RETRIES cfg)); try done;
    try (intros [= <- <-] ?; split_and!; try done; lia).
  pose proof (attempt_footprint retry_count s) as Hstep.
  destruct (attempt cfg world check_error retry_count s) as [[rc'|response|e] s1]
    eqn:Hattempt; cbn [snd] in Hstep;
    destruct Hstep as (Hdf & Hparams & Hsaved & Hwritten & Hcount & Hslept & Hua).
  - apply attempt_continue in Hattempt as ->.
    intros Hloop Hrc.
    destruct (IH _ _ Hloop) as (? & ? & ? & ? & ? & ? & Hua' & ? & _); [lia |].
    split_and!; try congruence; try lia.
    intros Hrot. rewrite Hua', Hua; done.
  - intros [= <- <-] ?. split_and!; try done; lia.
  - intros [= <- <-] ?. split_and!; try done; lia.
Qed.

(** X3.  The footprint of a request, whatever the site does: the accumulator,
    the query parameters, the saved flag and the files written are left
    alone; at most [MAX_RETRIES] requests are sent and at most as many
    delays slept; at least one request is sent when [MAX_RETRIES] is
    positive; and without user-agent rotation the user agent is never
    changed. *)
Theorem request_footprint s :
  let s' := (_request cfg world check_error s).2 in
  DATAFRAME s' = DATAFRAME s ∧ params s' = params s
  ∧ data_saved s' = data_saved s ∧ written s' = written s
  ∧ request_count s' ≤ request_count s + Z.to_nat (MAX_RETRIES cfg)
  ∧ length (slept s') ≤ length (slept s) + Z.to_nat (MAX_RETRIES cfg)
  ∧ (USER_AGENT_ROTATION cfg = false → ua_updates s' = ua_updates s)
  ∧ ((0 < MAX_RETRIES cfg)%Z → request_count s < request_count s').
Proof.
  pose proof (_request_loop cfg world check_error s) as Hloop.
  destruct (_request cfg world check_error s) as [r s'].
  apply request_loop_footprint in Hloop; [| lia].
  rewrite Z.sub_0_r in Hloop.
  destruct Hloop as (? & ? & ? & ? & ? & ? & ? & _ & ?). done.
Qed.

(** X4.  A ceiling that is zero or negative: the loop body never runs, and
    [_request] raises [QueryError] at once without sending anything. *)
Theorem request_without_attempts s :
  (MAX_RETRIES cfg ≤ 0)%Z →
  _request cfg world check_error s
  = (Raise (QueryError (FailedAfter (MAX_RETRIES cfg))), s).
Proof.
  intros Hmax.
  pose proof (_request_loop cfg world check_error s) as Hloop.
  destruct (Z.to_nat (MAX_RETRIES cfg)) eqn:Hfuel; [| lia].
  cbn [request_loop] in Hloop.
  destruct (Z.ltb_spec 0 (MAX_RETRIES cfg)); [lia |].
  congruence.
Qed.
End RequestMore.

(** Four timeouts and a proper answer, with a ceiling of five. *)
Lemma request_succeeds_after_failures_witness :
  ∃ s',
    Base._request Scenarios.patient_cfg Scenarios.fifth_time_lucky
      Scenarios.flagged_check_error (Base.init ∅)
      = (Ok (Scenarios.json_response false), s')
    ∧ Base.request_count s' = 5
    ∧ Base.slept s'
      = [Base.DInt 4; Base.DInt 6; Base.DInt 8; Base.DInt 10;
         Base.DFloat (Base.jittered Scenarios.patient_cfg (1 # 4))].
Proof.
  apply (request_succeeds_after_failures Scenarios.patient_cfg
           Scenarios.fifth_time_lucky Scenarios.flagged_check_error 4
           (Base.init ∅) (Scenarios.json_response false)).
  - reflexivity.
  - intros [|[|[|[|i]]]] Hi; [reflexivity.. | lia].
  - reflexivity.
  - reflexivity.
Defined.

(** A response without Content-Type header makes the TataCliq error check
    raise KeyError, which the loop does not catch. *)
Lemma request_uncaught_exception_propagates_witness :
  ∃ s',
    Base._request (TataCliq.cfg "/srv/crawler") Scenarios.headerless
      TataCliq.check_error (Base.init ∅)
      = (Raise (KeyError "Content-Type"), s')
    ∧ Base.request_count s' = 1
    ∧ Base.slept s' = [].
Proof.
  apply (request_uncaught_exception_propagates (TataCliq.cfg "/srv/crawler")
           Scenarios.headerless TataCliq.check_error 0 (Base.init ∅)
           (KeyError "Content-Type")).
  - reflexivity.
  - intros i Hi. lia.
  - reflexivity.
  - reflexivity.
Defined.

(** A ceiling of zero. *)
Lemma request_without_attempts_witness :
  Base._request Scenarios.no_attempt_cfg Scenarios.always_error
    Scenarios.flagged_check_error (Base.init ∅)
  = (Raise (QueryError (FailedAfter 0)), Base.init ∅).
Proof.
  apply (request_without_attempts Scenarios.no_attempt_cfg Scenarios.always_error
           Scenarios.flagged_check_error (Base.init ∅)).
  reflexivity.
Defined.

(* ===================================================================== *)
(** * Headers and cookies of a request *)
(* ===================================================================== *)

(** X5.  Headers passed to one request override the class-level defaults and
    stay in the class-level dictionary: a later request made without headers
    sends them again, together with the defaults they did not override.
    Cookies passed by the caller are never sent; the class-level cookies
    are. *)
Theorem request_headers_are_sticky (headers : gmap string string)
    (cookies cookies' : option (gmap string string)) (cls : Base.class_attrs) :
  let first := Base.prepare_kwargs (Some headers) cookies cls in
  let second := Base.prepare_kwargs None cookies' first.2 in
  Base.kw_headers first.1 = headers ∪ Base.DEFAULT_HEADERS cls
  ∧ Base.kw_headers second.1 = Base.kw_headers first.1
  ∧ (∀ k v, headers !! k = Some v → Base.kw_headers second.1 !! k = Some v)
  ∧ (∀ k, headers !! k = None →
       Base.kw_headers second.1 !! k = Base.DEFAULT_HEADERS cls !! k)
  ∧ Base.kw_cookies first.1 = Base.DEFAULT_COOKIES cls
  ∧ Base.kw_cookies second.1 = Base.DEFAULT_COOKIES cls.
Proof.
  cbn. split_and!; try done.
  - intros k v Hk. by apply lookup_union_Some_l.
  - intros k Hk. by apply lookup_union_r.
Qed.

(* ===================================================================== *)
(** * More on the accumulator *)
(* ===================================================================== *)

Section AccumulatorMore.
Import Base.

(** Only membership in [seen] matters. *)
Lemma drop_dups_from_ext seen seen' rows :
  (∀ x, x ∈ seen ↔ x ∈ seen') →
  drop_dups_from seen rows = drop_dups_from seen' rows.
Proof.
  revert seen seen'. induction rows as [|row rows IH]; intros seen seen' Hseen;
    [done |].
  cbn [drop_dups_from].
  rewrite (bool_decide_ext (row ∈ seen) (row ∈ seen')) by apply Hseen.
  case_bool_decide; [by apply IH |].
  f_equal. apply IH. clear IH. set_solver.
Qed.

Lemma drop_dups_from_app seen l1 l2 :
  drop_dups_from seen (l1 ++ l2)
  = drop_dups_from seen l1 ++ drop_dups_from (l1 ++ seen) l2.
Proof.
  revert seen. induction l1 as [|row l1 IH]; intros seen; [done |].
  cbn [app drop_dups_from].
  case_bool_decide as Hrow.
  - rewrite IH. f_equal. apply drop_dups_from_ext.
    clear IH. set_solver.
  - cbn [app]. f_equal. rewrite IH. f_equal. apply drop_dups_from_ext.
    clear IH. set_solver.
Qed.

(** X6.  Deduplication keeps the first occurrence of every row and nothing
    else: the result has no duplicates and the same rows as the input; the
    rows kept from a first batch keep their places when a second batch is
    appended; rows that are already distinct are left as they are; and
    deduplicating twice changes nothing. *)
Theorem drop_duplicates_keeps_first (l1 l2 : list Product) :
  NoDup (drop_duplicates (l1 ++ l2))
  ∧ (∀ x, x ∈ drop_duplicates (l1 ++ l2) ↔ x ∈ l1 ∨ x ∈ l2)
  ∧ drop_duplicates l1 `prefix_of` drop_duplicates (l1 ++ l2)
  ∧ drop_duplicates (drop_duplicates l1) = drop_duplicates l1
  ∧ (drop_duplicates l1 = l1 ↔ NoDup l1).
Proof.
  assert (∀ l, NoDup l → drop_duplicates l = l) as Hid.
  { intros l Hl. apply drop_dups_from_fresh; [done | set_solver]. }
  split_and!.
  - apply drop_dups_from_NoDup.
  - intros x. unfold drop_duplicates.
    rewrite elem_of_drop_dups_from, elem_of_app. set_solver.
  - unfold drop_duplicates. rewrite drop_dups_from_app. by eexists.
  - apply Hid, drop_dups_from_NoDup.
  - split; [| apply Hid].
    intros <-. apply drop_dups_from_NoDup.
Qed.

Variable cfg : config.
Context {Body : Type}.
Variable world : env Body.

(** X7.  The file of a flush.  With a non-empty accumulator not yet saved, the
    output step writes one file, named after the platform and the time
    stamp, in the output folder; its rows are those of the accumulator, each
    once; the accumulator is replaced by these rows and marked saved.  Rows
    accumulated after that are never written by a later call. *)
Theorem output_data_writes_deduplicated_rows s :
  DATAFRAME s ≠ [] → data_saved s = false →
  let s' := output_data cfg world s in
  ∃ rows,
    written s'
      = written s ++
          [(OUTPUT_FOLDER cfg +:+ "/" +:+ platform_name cfg +:+ "_products_"
              +:+ now world (length (written s)) +:+ ".csv", rows)]
    ∧ rows ≠ [] ∧ NoDup rows ∧ (∀ x, x ∈ rows ↔ x ∈ DATAFRAME s)
    ∧ DATAFRAME s' = rows ∧ data_saved s' = true
    ∧ (∀ more, written (output_data cfg world (concat_rows more s'))
               = written s').
Proof.
  intros Hdf Hsaved. cbn zeta.
  exists (drop_duplicates (DATAFRAME s)).
  assert (output_data cfg world s
          = {| request_count := request_count s;
               DATAFRAME := drop_duplicates (DATAFRAME s);
               data_saved := true; params := params s;
               ua_updates := ua_updates s; slept := slept s;
               written :=
                 written s ++
                   [(output_file_path cfg (now world (length (written s))),
                     drop_duplicates (DATAFRAME s))] |}) as ->.
  { unfold output_data. rewrite Hsaved. by destruct (DATAFRAME s). }
  destruct (drop_duplicates_spec (DATAFRAME s)) as [Hnodup Helem].
  cbn [DATAFRAME data_saved written].
  split_and!; [done | | done | exact Helem | done | done |].
  - intros Hnil. by apply drop_duplicates_nil_inv in Hnil.
  - intros more. unfold output_data.
    cbn [data_saved concat_rows]. by rewrite orb_true_r.
Qed.
End AccumulatorMore.

(** Three accumulated rows, one of them a repetition. *)
Lemma output_data_writes_deduplicated_rows_witness :
  ∃ rows,
    Base.written (Base.output_data Scenarios.default_cfg Scenarios.always_error
                    Scenarios.loaded)
      = [] ++ [("output/Test_products_20250101_000000.csv", rows)]
    ∧ rows ≠ [] ∧ NoDup rows
    ∧ (∀ x, x ∈ rows ↔ x ∈ Base.DATAFRAME Scenarios.loaded)
    ∧ Base.DATAFRAME (Base.output_data Scenarios.default_cfg
                        Scenarios.always_error Scenarios.loaded) = rows
    ∧ Base.data_saved (Base.output_data Scenarios.default_cfg
                         Scenarios.always_error Scenarios.loaded) = true
    ∧ (∀ more,
         Base.written
           (Base.output_data Scenarios.default_cfg Scenarios.always_error
              (Base.concat_rows more
                 (Base.output_data Scenarios.default_cfg Scenarios.always_error
                    Scenarios.loaded)))
         = Base.written (Base.output_data Scenarios.default_cfg
                           Scenarios.always_error Scenarios.loaded)).
Proof.
  apply (output_data_writes_deduplicated_rows Scenarios.default_cfg
           Scenarios.always_error Scenarios.loaded).
  - discriminate.
  - reflexivity.
Defined.

(* ===================================================================== *)
(** * The Virgio crawl in general *)
(* ===================================================================== *)

Section VirgioMore.
Import Base.
Variable project_dir : string.
Variable world : env Virgio.body.

Abbreviation vcfg := (Virgio.cfg project_dir).
Abbreviation vrun := (Virgio.run project_dir world).
Abbreviation page_of ct products more cursor :=
  (Responds {| content_type := Some ct;
               json := Some (Scenarios.listing products more cursor) |}).

(** Pages that hold products and announce a next page are consumed one
    request each, their records appended in order. *)
Lemma virgio_run_prefix (pages : list (list Virgio.node * string)) ct fuel s :
  startswith ct "application/json" = true →
  Forall (λ pg, pg.1 ≠ []) pages →
  (∀ i pg, pages !! i = Some pg →
     ∀ p, http world (request_count s + S i) p = page_of ct pg.1 true pg.2) →
  ∃ s_k,
    vrun (length pages + fuel) s = vrun fuel s_k
    ∧ request_count s_k = request_count s + length pages
    ∧ DATAFRAME s_k = DATAFRAME s ++ (Virgio.parse_node <$> concat pages.*1)
    ∧ written s_k = written s ∧ data_saved s_k = data_saved s.
Proof.
  intros Hct. revert s.
  induction pages as [|[products cursor] pages IH]; intros s Hpages Hhttp.
  - exists s. cbn. rewrite Nat.add_0_r, app_nil_r. done.
  - apply Forall_cons in Hpages as [Hproducts Hpages].
    cbn [length Nat.add Virgio.run].
    rewrite (crawl_products project_dir world s ct products true cursor);
      [| | done | done].
    2:{ specialize (Hhttp 0 _ eq_refl (params s)).
        by rewrite Nat.add_1_r in Hhttp. }
    cbn zeta iota.
    edestruct (IH (sleep (DInt (DELAY vcfg))
                     (set_param "direction" "next"
                        (set_param "cursor" cursor
                           (concat_rows (Virgio.parse_node <$> products)
                              (sleep (DFloat (jittered vcfg
                                                (random world (S (request_count s)))))
                                 (count_request s)))))))
      as (s_k & Hrun & Hcount & Hdf & Hwritten & Hsaved); [done | |].
    { intros i pg Hpg p. cbn [request_count sleep set_param concat_rows count_request].
      replace (S (request_count s) + S i) with (request_count s + S (S i)) by lia.
      by apply (Hhttp (S i)). }
    exists s_k. split_and!; [done | | | done | done].
    + rewrite Hcount. cbn. lia.
    + rewrite Hdf. cbn [DATAFRAME sleep set_param concat_rows count_request
                          fmap list_fmap concat].
      by rewrite fmap_app, app_assoc.
Qed.

(** X8.  Pagination in general.  When the site serves pages with products that
    announce a next page, followed by a last response that holds no
    products or announces no next page, [run] ends normally after exactly
    one request per response; the accumulator then holds the records of all
    the pages, each once, in order of first appearance, and they are
    written to one file (to none when there is no record at all). *)
Theorem virgio_run_collects_every_page
    (pages : list (list Virgio.node * string)) last more cursor ct fuel :
  startswith ct "application/json" = true →
  Forall (λ pg, pg.1 ≠ []) pages →
  (∀ i pg, pages !! i = Some pg →
     ∀ p, http world (S i) p = page_of ct pg.1 true pg.2) →
  (∀ p, http world (S (length pages)) p = page_of ct last more cursor) →
  last = [] ∨ more = false →
  length pages < fuel →
  let rows :=
    drop_duplicates (Virgio.parse_node <$> (concat pages.*1 ++ last)) in
  ∃ s',
    vrun fuel Virgio.new = Some (Ok tt, s')
    ∧ request_count s' = S (length pages)
    ∧ DATAFRAME s' = rows
    ∧ written s'
      = match rows with
        | [] => []
        | _ => [(output_file_path vcfg (now world 0), rows)]
        end
    ∧ NoDup rows
    ∧ (∀ x, x ∈ rows ↔ x ∈ Virgio.parse_node <$> (concat pages.*1 ++ last)).
Proof.
  intros Hct Hpages Hhttp Hlast Hend Hfuel rows.
  destruct (virgio_run_prefix pages ct (fuel - length pages) Virgio.new Hct Hpages)
    as (s_k & Hrun & Hcount & Hdf & Hwritten & Hsaved); [done |].
  replace (length pages + (fuel - length pages)) with fuel in Hrun by lia.
  destruct (fuel - length pages) as [|rest] eqn:Hrest; [lia |].
  cbn [Virgio.run] in Hrun. cbn in Hcount.
  assert (∃ s1, Virgio.crawl project_dir world s_k = (Ok false, s1)
                ∧ request_count s1 = S (length pages)
                ∧ DATAFRAME s1 = Virgio.parse_node <$> (concat pages.*1 ++ last)
                ∧ written s1 = [] ∧ data_saved s1 = false)
    as (s1 & Hcrawl & Hcount1 & Hdf1 & Hwritten1 & Hsaved1).
  { specialize (Hlast (params s_k)). rewrite <- Hcount in Hlast.
    destruct last as [|n ns].
    - rewrite (crawl_no_products project_dir world s_k ct more cursor) by done.
      eexists. split; [done |]. cbn. rewrite Hcount, Hdf, app_nil_r. done.
    - destruct Hend as [Hnil | ->]; [done |].
      rewrite (crawl_products project_dir world s_k ct (n :: ns) false cursor)
        by done.
      eexists. split; [done |]. cbn [request_count DATAFRAME written data_saved
        concat_rows sleep count_request].
      rewrite Hcount, Hdf, fmap_app. done. }
  rewrite Hcrawl in Hrun.
  destruct (drop_duplicates_spec (Virgio.parse_node <$> (concat pages.*1 ++ last)))
    as [Hnodup Helem].
  eexists. split; [exact Hrun |].
  unfold output_data. rewrite Hsaved1, Hdf1, Hwritten1, orb_false_r.
  fold rows in Hnodup, Helem |- *.
  destruct (Virgio.parse_node <$> (concat pages.*1 ++ last)) as [|r rs] eqn:Hall.
  - cbn. rewrite Hdf1, Hwritten1. done.
  - cbn [empty DATAFRAME written request_count app length].
    assert (rows ≠ []) as Hne.
    { intros Hnil. by apply drop_duplicates_nil_inv in Hnil. }
    split_and!; done.
Qed.

(** X9.  A listing that never stops announcing a next page is crawled without
    end: the crawler has no page limit of its own. *)
Theorem virgio_run_never_ends_on_endless_listing ct fuel s :
  startswith ct "application/json" = true →
  (∀ n p, ∃ products cursor,
     products ≠ [] ∧ http world n p = page_of ct products true cursor) →
  vrun fuel s = None.
Proof.
  intros Hct Hhttp. revert s.
  induction fuel as [|fuel IH]; intros s; [done |].
  cbn [Virgio.run].
  destruct (Hhttp (S (request_count s)) (params s))
    as (products & cursor & Hproducts & Hpage).
  rewrite (crawl_products project_dir world s ct products true cursor) by done.
  apply IH.
Qed.
End VirgioMore.

Section FailureFlush.
Import Base.

(** A request all of whose attempts fail raises an exception of the kinds
    the loop catches, after [MAX_RETRIES] requests, and leaves the
    accumulator and the files alone. *)
Lemma request_all_fail_raises {Body} cfg (world : env Body) check_error s :
  (∀ n, request_count s < n →
     attempt_fails world check_error n (params s) = true) →
  ∃ e s',
    _request cfg world check_error s = (Raise e, s')
    ∧ is_request_or_query_error e = true
    ∧ request_count s' = request_count s + Z.to_nat (MAX_RETRIES cfg)
    ∧ DATAFRAME s' = DATAFRAME s ∧ written s' = written s
    ∧ data_saved s' = data_saved s.
Proof.
  intros Hfail.
  pose proof (_request_loop cfg world check_error s) as Hloop.
  destruct (_request cfg world check_error s) as [r s'].
  pose proof (request_loop_footprint cfg world check_error _ _ _ _ _ Hloop)
    as (Hdf & _ & Hsaved & Hwritten & _); [lia |].
  destruct (Z.to_nat (MAX_RETRIES cfg)) as [|m] eqn:Hceiling.
  - cbn [request_loop] in Hloop.
    destruct (Z.ltb_spec 0 (MAX_RETRIES cfg)); [lia |].
    injection Hloop as <- <-. eexists _, _. split_and!; done || lia.
  - destruct (passes_all_fail cfg world check_error m 0 s Hfail)
      as (s_m & Hpasses & Hcount & Hparams); [lia |].
    destruct (attempt_fails_last cfg world check_error (0 + Z.of_nat m) s_m)
      as (s1 & Hlast & Hcount1); [rewrite Hparams; apply Hfail; lia | lia |].
    replace (S m) with (m + 1) in Hloop by lia.
    rewrite request_loop_passes, Hpasses, Hlast in Hloop.
    injection Hloop as <- <-. eexists _, _. split_and!; try done; try lia.
    specialize (Hfail (S (request_count s_m))).
    rewrite <- Hparams in Hfail. unfold attempt_fails in Hfail.
    destruct (attempt_outcome world check_error _ _); [done |].
    apply Hfail. lia.
Qed.

Variable project_dir : string.
Variable world : env Virgio.body.

(** X10.  Partial data is flushed once.  When the site serves some pages and
    every later attempt fails with a transport fault, [run] raises after
    the three attempts of the failing page, and [safe_run] re-raises the
    exception after its final flush has written the records of the pages
    already crawled, each once, to one file. *)
Theorem virgio_safe_run_flushes_pages_before_failure
    (pages : list (list Virgio.node * string)) ct fuel :
  startswith ct "application/json" = true →
  Forall (λ pg, pg.1 ≠ []) pages →
  (∀ i pg, pages !! i = Some pg →
     ∀ p, http world (S i) p
          = Responds {| content_type := Some ct;
                        json := Some (Scenarios.listing pg.1 true pg.2) |}) →
  (∀ n p, length pages < n →
     attempt_fails world Virgio.check_error n p = true) →
  length pages < fuel →
  let rows := drop_duplicates (Virgio.parse_node <$> concat pages.*1) in
  ∃ e s',
    Virgio.run project_dir world fuel Virgio.new = Some (Raise e, s')
    ∧ written s' = []
    ∧ safe_run (Virgio.cfg project_dir) world (Virgio.run project_dir world)
        fuel Virgio.new
      = Some (Raise e, output_data (Virgio.cfg project_dir) world s')
    ∧ is_request_or_query_error e = true
    ∧ request_count s' = length pages + 3
    ∧ written (output_data (Virgio.cfg project_dir) world s')
      = match rows with
        | [] => []
        | _ => [(output_file_path (Virgio.cfg project_dir) (now world 0), rows)]
        end.
Proof.
  intros Hct Hpages Hhttp Hdown Hfuel rows.
  destruct (virgio_run_prefix project_dir world pages ct (fuel - length pages)
              Virgio.new Hct Hpages)
    as (s_k & Hrun & Hcount & Hdf & Hwritten & Hsaved); [done |].
  replace (length pages + (fuel - length pages)) with fuel in Hrun by lia.
  destruct (fuel - length pages) as [|rest] eqn:Hrest; [lia |].
  cbn [Virgio.run] in Hrun. cbn in Hcount, Hdf, Hwritten, Hsaved.
  destruct (request_all_fail_raises (Virgio.cfg project_dir) world
              Virgio.check_error s_k)
    as (e & s1 & Hreq & He & Hcount1 & Hdf1 & Hwritten1 & Hsaved1).
  { intros n Hn. apply Hdown. lia. }
  assert (Virgio.crawl project_dir world s_k = (Raise e, s1)) as Hcrawl.
  { unfold Virgio.crawl, get, bind. by rewrite Hreq. }
  rewrite Hcrawl in Hrun.
  exists e, s1. split_and!; try done.
  - congruence.
  - unfold safe_run. by rewrite Hrun.
  - rewrite Hcount1, Hcount. cbn. lia.
  - rewrite output_data_written, Hsaved1, Hsaved, Hdf1, Hdf, Hwritten1, Hwritten.
    rewrite orb_false_r. subst rows.
    destruct (Virgio.parse_node <$> concat pages.*1) as [|r rs]; done.
Qed.
End FailureFlush.

(** Two pages, the second one the last, sharing a product. *)
Lemma virgio_run_collects_every_page_witness :
  ∃ s',
    Virgio.run "/srv/crawler" Scenarios.two_pages 2 Virgio.new = Some (Ok tt, s')
    ∧ Base.request_count s' = 2
    ∧ Base.DATAFRAME s'
      = [Scenarios.shirt_row; Scenarios.dress_row;
         Base.mkProduct "3" "Midi Skirt" "https://www.virgio.com/products/midi-skirt"]
    ∧ Base.written s'
      = [("/srv/crawler/output/Virgio_products_20250101_000000.csv",
          [Scenarios.shirt_row; Scenarios.dress_row;
           Base.mkProduct "3" "Midi Skirt"
             "https://www.virgio.com/products/midi-skirt"])]
    ∧ NoDup [Scenarios.shirt_row; Scenarios.dress_row;
             Base.mkProduct "3" "Midi Skirt"
               "https://www.virgio.com/products/midi-skirt"]
    ∧ (∀ x, x ∈ [Scenarios.shirt_row; Scenarios.dress_row;
                 Base.mkProduct "3" "Midi Skirt"
                   "https://www.virgio.com/products/midi-skirt"]
            ↔ x ∈ Virgio.parse_node
                    <$> [Scenarios.shirt; Scenarios.dress;
                         Scenarios.dress; Scenarios.skirt]).
Proof.
  apply (virgio_run_collects_every_page "/srv/crawler" Scenarios.two_pages
           [([Scenarios.shirt; Scenarios.dress], "c1")]
           [Scenarios.dress; Scenarios.skirt] false "" "application/json" 2).
  - reflexivity.
  - repeat constructor. discriminate.
  - intros [|i] pg Hpg p; [| done]. injection Hpg as <-. reflexivity.
  - intros p. reflexivity.
  - right. reflexivity.
  - cbn. lia.
Defined.

(** A listing that announces a next page for ever. *)
Lemma virgio_run_never_ends_on_endless_listing_witness :
  Virgio.run "/srv/crawler" Scenarios.endless 50 Virgio.new = None.
Proof.
  apply (virgio_run_never_ends_on_endless_listing "/srv/crawler"
           Scenarios.endless "application/json" 50 Virgio.new).
  - reflexivity.
  - intros n p. exists [Scenarios.shirt], "next". split; [discriminate | reflexivity].
Defined.

(** One page, then a connection that stays down. *)
Lemma virgio_safe_run_flushes_pages_before_failure_witness :
  ∃ e s',
    Virgio.run "/srv/crawler" Scenarios.goes_down 2 Virgio.new
      = Some (Raise e, s')
    ∧ Base.written s' = []
    ∧ Base.safe_run (Virgio.cfg "/srv/crawler") Scenarios.goes_down
        (Virgio.run "/srv/crawler" Scenarios.goes_down) 2 Virgio.new
      = Some (Raise e,
              Base.output_data (Virgio.cfg "/srv/crawler") Scenarios.goes_down s')
    ∧ is_request_or_query_error e = true
    ∧ Base.request_count s' = 1 + 3
    ∧ Base.written
        (Base.output_data (Virgio.cfg "/srv/crawler") Scenarios.goes_down s')
      = [("/srv/crawler/output/Virgio_products_20250101_000000.csv",
          [Scenarios.shirt_row; Scenarios.dress_row])].
Proof.
  apply (virgio_safe_run_flushes_pages_before_failure "/srv/crawler"
           Scenarios.goes_down [([Scenarios.shirt; Scenarios.dress], "c1")]
           "application/json" 2).
  - reflexivity.
  - repeat constructor. discriminate.
  - intros [|i] pg Hpg p; [| done]. injection Hpg as <-. reflexivity.
  - intros [|[|n]] p Hn; [cbn in Hn; lia.. |]. reflexivity.
  - cbn. lia.
Defined.

(* ===================================================================== *)
(** * Product identifiers of the Virgio crawler *)
(* ===================================================================== *)

Section SegmentFacts.

Lemma string_app_cons c (s t : string) : String c s +:+ t = String c (s +:+ t).
Proof. reflexivity. Qed.

Lemma string_app_nil_r (s : string) : s +:+ "" = s.
Proof.
  induction s as [|c s IH]; [done |]. by rewrite string_app_cons, IH.
Qed.

Lemma string_app_assoc (s1 s2 s3 : string) :
  (s1 +:+ s2) +:+ s3 = s1 +:+ (s2 +:+ s3).
Proof.
  induction s1 as [|c s1 IH]; [done |]. by rewrite !string_app_cons, IH.
Qed.

Lemma slash_free_app s1 s2 :
  Virgio.slash_free (s1 +:+ s2) = Virgio.slash_free s1 && Virgio.slash_free s2.
Proof.
  induction s1 as [|c s1 IH]; [done |].
  rewrite string_app_cons. cbn [Virgio.slash_free].
  by rewrite IH, andb_assoc.
Qed.

Lemma last_segment_from_slash_free acc s :
  Virgio.slash_free acc = true →
  Virgio.slash_free (Virgio.last_segment_from acc s) = true.
Proof.
  revert acc. induction s as [|c s IH]; intros acc Hacc; [done |].
  cbn [Virgio.last_segment_from].
  destruct (Ascii.eqb c "/") eqn:Hc; [by apply IH |].
  apply IH. rewrite slash_free_app, Hacc. cbn [Virgio.slash_free].
  by rewrite Hc.
Qed.

Lemma last_segment_from_no_slash acc s :
  Virgio.slash_free s = true → Virgio.last_segment_from acc s = acc +:+ s.
Proof.
  revert acc. induction s as [|c s IH]; intros acc Hs.
  - cbn. by rewrite string_app_nil_r.
  - cbn [Virgio.slash_free] in Hs. apply andb_true_iff in Hs as [Hc Hs].
    cbn [Virgio.last_segment_from].
    destruct (Ascii.eqb c "/"); [done |].
    rewrite IH by done. by rewrite string_app_assoc.
Qed.

Lemma last_segment_from_after_slash acc a b :
  Virgio.slash_free b = true →
  Virgio.last_segment_from acc (a +:+ "/" +:+ b) = b.
Proof.
  intros Hb. revert acc. induction a as [|c a IH]; intros acc.
  - change ("" +:+ "/" +:+ b) with (String "/" b).
    cbn [Virgio.last_segment_from]. rewrite Ascii.eqb_refl.
    by rewrite last_segment_from_no_slash.
  - rewrite string_app_cons. cbn [Virgio.last_segment_from].
    destruct (Ascii.eqb c "/"); apply IH.
Qed.

(** X11.  The identifier is what follows the last "/": for an id made of any
    prefix, a "/" and a suffix without "/", the product id is the suffix;
    an id without "/" is taken as it is. *)
Theorem last_segment_is_suffix_after_last_slash a b :
  Virgio.slash_free b = true →
  Virgio.last_segment (a +:+ "/" +:+ b) = b
  ∧ Virgio.last_segment b = b.
Proof.
  intros Hb.
  assert (Virgio.last_segment b = b) as Hid.
  { unfold Virgio.last_segment. by rewrite last_segment_from_no_slash. }
  split; [| done].
  unfold Virgio.last_segment. by apply last_segment_from_after_slash.
Qed.

(** X12.  Whatever a node holds, the record parsed from it has an id without "/",
    and a URL that is empty or starts with the base URL of the shop followed
    by "products/". *)
Theorem parse_node_shape (node : Virgio.node) :
  Virgio.slash_free (Base.product_id (Virgio.parse_node node)) = true
  ∧ (Base.product_url (Virgio.parse_node node) = ""
     ∨ ∃ handle, Virgio.handle node = Some handle ∧ handle ≠ ""
         ∧ Base.product_url (Virgio.parse_node node)
           = "https://www.virgio.com/products/" +:+ handle)
  ∧ Base.product_name (Virgio.parse_node node) = default "" (Virgio.title node).
Proof.
  unfold Virgio.parse_node. cbn [Base.product_id Base.product_url Base.product_name].
  split_and!; [| | done].
  - destruct (Virgio.nonempty _); [| done].
    by apply last_segment_from_slash_free.
  - destruct (Virgio.handle node) as [[|c handle]|]; cbn; [by left | | by left].
    right. eexists. split_and!; done.
Qed.
End SegmentFacts.

(** A Shopify global id. *)
Lemma last_segment_is_suffix_after_last_slash_witness :
  Virgio.last_segment ("gid://shopify/Product" +:+ "/" +:+ "8123456789") = "8123456789"
  ∧ Virgio.last_segment "8123456789" = "8123456789".
Proof.
  apply (last_segment_is_suffix_after_last_slash "gid://shopify/Product" "8123456789").
  reflexivity.
Defined.

(* ===================================================================== *)
(** * More on the registry and the orchestrator *)
(* ===================================================================== *)

Section RegistryMore.
Import Base Main.

(** X13.  Registration and lookup.  A class registered under a name is found
    under every spelling of that name that differs only in case; names with
    another upper-case form keep resolving as before; registering again
    under such a spelling replaces the earlier class. *)
Theorem register_then_get_crawler {Class} (reg : gmap string Class)
    name name' cls :
  upper name = upper name' →
  get_crawler (register name cls reg) name' = Some cls
  ∧ (∀ other, upper other ≠ upper name →
       get_crawler (register name cls reg) other = get_crawler reg other)
  ∧ (∀ cls0, get_crawler (register name cls (register name' cls0 reg)) name'
             = Some cls)
  ∧ (∀ cls0, available_crawlers (register name cls (register name' cls0 reg))
             ≡ₚ available_crawlers (register name' cls0 reg)).
Proof.
  intros Heq. unfold get_crawler, register, available_crawlers.
  rewrite <- Heq. split_and!.
  - apply lookup_insert_eq.
  - intros other Hother. by apply lookup_insert_ne.
  - intros cls0. apply lookup_insert_eq.
  - intros cls0. rewrite insert_insert_eq.
    apply NoDup_Permutation; [apply NoDup_fst_map_to_list.. |].
    intros k. rewrite !list_elem_of_fmap. split.
    + intros ([k' c] & -> & Hin). apply elem_of_map_to_list in Hin.
      cbn. destruct (decide (k' = upper name)) as [->|Hne].
      * exists (upper name, cls0). split; [done |].
        apply elem_of_map_to_list, lookup_insert_eq.
      * exists (k', c). split; [done |].
        apply elem_of_map_to_list. rewrite lookup_insert_ne in Hin |- *; done.
    + intros ([k' c] & -> & Hin). apply elem_of_map_to_list in Hin.
      cbn. destruct (decide (k' = upper name)) as [->|Hne].
      * exists (upper name, cls). split; [done |].
        apply elem_of_map_to_list, lookup_insert_eq.
      * exists (k', c). split; [done |].
        apply elem_of_map_to_list. rewrite lookup_insert_ne in Hin |- *; done.
Qed.

Lemma register_all_lookup_from (classes : list (string * crawler_class)) reg key cls :
  foldl (λ reg '(name, cls), register name cls reg) reg classes !! key = Some cls →
  reg !! key = Some cls ∨ ∃ name, (name, cls) ∈ classes ∧ upper name = key.
Proof.
  revert reg. induction classes as [|[name c] classes IH]; intros reg; [by left |].
  cbn [foldl]. intros Hlookup. apply IH in Hlookup as [Hreg|(n & Hn & Hkey)].
  - unfold register in Hreg. rewrite lookup_insert in Hreg.
    case_decide as Hname; [| by left].
    injection Hreg as ->. right. exists name. split; [left | done].
  - right. exists n. split; [by right | done].
Qed.

Lemma register_all_registered_from (classes : list (string * crawler_class)) reg name :
  (name ∈ classes.*1 ∨ is_Some (reg !! upper name)) →
  is_Some (foldl (λ reg '(name, cls), register name cls reg) reg classes
             !! upper name).
Proof.
  revert reg. induction classes as [|[n c] classes IH]; intros reg.
  - intros [Hin|Hreg]; [by apply elem_of_nil in Hin | done].
  - cbn [foldl fmap list_fmap fst]. intros [Hin|Hreg]; apply IH.
    + apply elem_of_cons in Hin as [->|Hin]; [right | by left].
      unfold register. rewrite lookup_insert_eq. eauto.
    + right. unfold register. rewrite lookup_insert.
      case_decide; eauto.
Qed.

(** X14.  The names [main] runs with [--all] all resolve: every name listed by
    [available_crawlers] is the upper-case form of a registered name and is
    found by [get_crawler], with a class registered under that name; and
    every registered name is found, in any spelling of its case. *)
Theorem available_crawlers_resolve (classes : list (string * crawler_class)) :
  (∀ name, name ∈ available_crawlers (register_all classes) →
     ∃ cls registered,
       get_crawler (register_all classes) name = Some cls
       ∧ (registered, cls) ∈ classes ∧ upper registered = name)
  ∧ (∀ name spelling, name ∈ classes.*1 → upper spelling = upper name →
       is_Some (get_crawler (register_all classes) spelling)
       ∧ upper name ∈ available_crawlers (register_all classes)).
Proof.
  split.
  - intros name Hname.
    apply available_crawlers_spec in Hname as [cls Hcls].
    pose proof Hcls as Hlookup.
    apply register_all_lookup_from in Hlookup as [Hempty|(n & Hn & Hkey)];
      [by rewrite lookup_empty in Hempty |].
    exists cls, n. split_and!; [| done | done].
    unfold get_crawler.
    by rewrite (keys_upper_register_all classes name cls Hcls).
  - intros name spelling Hname Hspelling.
    assert (is_Some (register_all classes !! upper name)) as Hsome.
    { apply register_all_registered_from. by left. }
    split.
    + unfold get_crawler. by rewrite Hspelling.
    + by apply available_crawlers_spec.
Qed.


(** X15.  The [--crawler] branch of [main] has three ways to end, whatever the
    name and the registry: it returns without a log line of its own (also
    for a name that is not registered), it lets through an exception that
    is not an Exception, or it does not end because the crawler does not.
    The [except KeyError] branch is never taken. *)
Theorem main_single_outcomes reg fuel name :
  match main_single reg fuel name with
  | Some (Ok lines) => lines = []
  | Some (Raise e) =>
      is_Exception e = false ∧ run_crawler reg fuel name = Some (Raise e)
  | None => run_crawler reg fuel name = None
  end.
Proof.
  unfold main_single.
  destruct (run_crawler reg fuel name) as [[[? ?]|e]|] eqn:Hrun; [done | | done].
  apply run_crawler_raises in Hrun. by destruct e.
Qed.

(** [main] comes back from the pool exactly when every submitted worker has
    ended: one crawler that never ends keeps [main] from returning. *)
Theorem main_all_returns_iff_every_worker_ends reg fuel order :
  is_Some (main_all reg fuel order)
  ↔ ∀ name, name ∈ order → is_Some (run_crawler reg fuel name).
Proof.
  split.
  - intros [lines Hlines]. by eapply main_all_waits_for_every_worker.
  - intros Hall. unfold main_all.
    assert (is_Some (mapM (worker reg fuel) order)) as [finished ->]; [| done].
    induction order as [|name order IH]; [done |].
    cbn [mapM].
    assert (is_Some (worker reg fuel name)) as [w ->].
    { unfold worker. destruct (Hall name) as [outcome ->]; [left | done]. }
    destruct IH as [finished ->]; [intros n Hn; apply Hall; by right |].
    done.
Qed.

(** X16.  Any number of failing crawlers.  When every crawler of a registry
    filled by [register] ends, by running to its end or by raising an
    Exception from its constructor or its run, [main] logs one line per
    crawler, in completion order: a success line for each crawler that ran
    to its end and a failure line for each of the others. *)
Theorem main_all_reports_each_crawler reg fuel order :
  keys_upper reg →
  order ≡ₚ available_crawlers reg →
  (∀ name crawler_class,
     reg !! name = Some crawler_class →
     ∃ r, instantiate_and_run crawler_class fuel = Some r
          ∧ ∀ e, r = Raise e → is_Exception e = true) →
  main_all reg fuel order = Some (Ok (line_of (succeeds reg fuel) <$> order))
  ∧ length (line_of (succeeds reg fuel) <$> order) = size reg
  ∧ (∀ name, name ∈ order →
       (succeeds reg fuel name = true →
          SuccessfullyCompleted name ∈ line_of (succeeds reg fuel) <$> order)
       ∧ (succeeds reg fuel name = false →
          FailedToComplete name ∈ line_of (succeeds reg fuel) <$> order)).
Proof.
  intros Hupper Horder Hworkers. split_and!.
  - apply main_all_outcomes. intros name Hname.
    rewrite Horder in Hname.
    apply available_crawlers_spec in Hname as [cls Hcls].
    destruct (Hworkers name cls Hcls) as (r & Hr & Hexn).
    unfold run_crawler, run_crawler_try, get_crawler, succeeds.
    rewrite (Hupper name cls Hcls), Hcls, Hr.
    destruct r as [[]|e]; [done |].
    by rewrite (Hexn e eq_refl).
  - rewrite length_fmap, Horder. unfold available_crawlers.
    by rewrite length_fmap, length_map_to_list.
  - intros name Hname. split; intros Hsucc; apply list_elem_of_fmap;
      exists name; (split; [| done]); unfold line_of; by rewrite Hsucc.
Qed.
End RegistryMore.

(** "Virgio" and "virgio" name the same crawler. *)
Lemma register_then_get_crawler_witness :
  Base.get_crawler (Base.register "virgio" Scenarios.steady ∅) "Virgio"
    = Some Scenarios.steady
  ∧ (∀ other, Base.upper other ≠ Base.upper "virgio" →
       Base.get_crawler (Base.register "virgio" Scenarios.steady ∅) other
       = Base.get_crawler (∅ : gmap string Main.crawler_class) other)
  ∧ (∀ cls0,
       Base.get_crawler
         (Base.register "virgio" Scenarios.steady (Base.register "Virgio" cls0 ∅))
         "Virgio" = Some Scenarios.steady)
  ∧ (∀ cls0,
       Base.available_crawlers
         (Base.register "virgio" Scenarios.steady (Base.register "Virgio" cls0 ∅))
       ≡ₚ Base.available_crawlers (Base.register "Virgio" cls0 ∅)).
Proof.
  apply (register_then_get_crawler (∅ : gmap string Main.crawler_class)
           "virgio" "Virgio" Scenarios.steady).
  reflexivity.
Defined.

(** Four crawlers: one completes a crawl, one is answered with HTML, one
    does nothing, one cannot be constructed. *)
Lemma main_all_reports_each_crawler_witness :
  Main.main_all Scenarios.mixed_batch 3
    (Base.available_crawlers Scenarios.mixed_batch)
  = Some (Ok (Main.line_of (Main.succeeds Scenarios.mixed_batch 3)
                <$> Base.available_crawlers Scenarios.mixed_batch))
  ∧ length (Main.line_of (Main.succeeds Scenarios.mixed_batch 3)
              <$> Base.available_crawlers Scenarios.mixed_batch)
    = size Scenarios.mixed_batch
  ∧ (∀ name, name ∈ Base.available_crawlers Scenarios.mixed_batch →
       (Main.succeeds Scenarios.mixed_batch 3 name = true →
          Main.SuccessfullyCompleted name
          ∈ Main.line_of (Main.succeeds Scenarios.mixed_batch 3)
              <$> Base.available_crawlers Scenarios.mixed_batch)
       ∧ (Main.succeeds Scenarios.mixed_batch 3 name = false →
          Main.FailedToComplete name
          ∈ Main.line_of (Main.succeeds Scenarios.mixed_batch 3)
              <$> Base.available_crawlers Scenarios.mixed_batch)).
Proof.
  apply (main_all_reports_each_crawler Scenarios.mixed_batch 3
           (Base.available_crawlers Scenarios.mixed_batch)).
  - apply keys_upper_register_all.
  - reflexivity.
  - intros name cls. unfold Scenarios.mixed_batch, Main.register_all. cbn [foldl].
    unfold Base.register. cbn [Base.upper Base.upper_ascii].
    rewrite !lookup_insert, lookup_empty.
    repeat case_decide; simplify_eq; intros [= <-];
      (eexists; split; [reflexivity |]); intros e [= <-]; reflexivity.
Defined.

(* ===================================================================== *)
(** * More on the availability checkers *)
(* ===================================================================== *)

Section SubstringFacts.
Import SocialScan.

Lemma prefix_spec x m : String.prefix x m = true ↔ ∃ b, m = x +:+ b.
Proof.
  revert m. induction x as [|c x IH]; intros m.
  - destruct m; cbn; (split; [intros _; by eexists | done]).
  - destruct m as [|c' m]; cbn.
    + split; [done | intros [b Hb]; done].
    + destruct (ascii_dec c c') as [->|Hne].
      * rewrite IH. split; intros [b Hb]; exists b.
        -- by rewrite string_app_cons, Hb.
        -- rewrite string_app_cons in Hb. by injection Hb.
      * split; [done |]. intros [b Hb].
        rewrite string_app_cons in Hb. by injection Hb.
Qed.

(** [contains] is the substring test. *)
Lemma contains_spec x m : contains x m = true ↔ ∃ a b, m = a +:+ x +:+ b.
Proof.
  induction m as [|c m IH]; cbn [contains]; rewrite orb_true_iff, prefix_spec.
  - split.
    + intros [[b Hb]|]; [| done]. by exists "", b.
    + intros (a & b & Hab). left.
      destruct a; [by exists b | done].
  - rewrite IH. split.
    + intros [[b Hb]|(a & b & Hab)]; [by exists "", b |].
      exists (String c a), b. by rewrite string_app_cons, Hab.
    + intros (a & b & Hab). destruct a as [|c' a].
      * left. by exists b.
      * right. rewrite string_app_cons in Hab. injection Hab as -> ->.
        by exists a, b.
Qed.
End SubstringFacts.

Section ClassifyFacts.
Import SocialScan.
Context {Data : Type}.

(** X17.  Sorting a refusal.  For a checker class of the enum, the outcome built
    from a refusal message is never available and always successful; it is
    valid (the name or address is taken) exactly when one of the listed
    messages occurs in the platform's message, and invalid otherwise; the
    link is kept only in the first case, and the message is passed on. *)
Theorem response_unavailable_or_invalid_spec class_name platform query message
    (unavailable_messages : list string) (url : option string) :
  Platforms_of class_name = Ok platform →
  ∃ response : PlatformResponse Data,
    response_unavailable_or_invalid class_name query message
      unavailable_messages url = Ok response
    ∧ available response = false ∧ success response = true
    ∧ SocialScan.message response = message
    ∧ SocialScan.query response = query
    ∧ data response = None
    ∧ (valid response = true
       ↔ ∃ x a b, x ∈ unavailable_messages ∧ message = a +:+ x +:+ b)
    ∧ link response = (if valid response then url else None).
Proof.
  intros Hplatform.
  unfold response_unavailable_or_invalid, response_unavailable,
    response_invalid, build.
  rewrite Hplatform.
  destruct (existsb _ _) eqn:Hany; eexists; (split; [reflexivity |]);
    cbn; split_and!; try done.
  - split; [intros _ | done].
    apply existsb_exists in Hany as (x & Hx & Hcontains).
    apply contains_spec in Hcontains as (a & b & Hab).
    exists x, a, b. split; [by apply list_elem_of_In | done].
  - split; [done |]. intros (x & a & b & Hx & Hab).
    assert (existsb (λ x, contains x message) unavailable_messages = true)
      as Htrue; [| congruence].
    apply existsb_exists. exists x. split; [by apply list_elem_of_In |].
    apply contains_spec. by exists a, b.
Qed.
End ClassifyFacts.

(** A refusal of the Booking checker. *)
Lemma response_unavailable_or_invalid_spec_witness :
  ∃ response : SocialScan.PlatformResponse string,
    SocialScan.response_unavailable_or_invalid "Booking" "jo@example.org"
      "An account with this address already exists."
      ["already exists"; "is taken"] (Some "https://account.booking.com")
      = Ok response
    ∧ SocialScan.available response = false
    ∧ SocialScan.success response = true
    ∧ SocialScan.message response = "An account with this address already exists."
    ∧ SocialScan.query response = "jo@example.org"
    ∧ SocialScan.data response = None
    ∧ (SocialScan.valid response = true
       ↔ ∃ x a b, x ∈ ["already exists"; "is taken"]
           ∧ "An account with this address already exists." = a +:+ x +:+ b)
    ∧ SocialScan.link response
      = (if SocialScan.valid response
         then Some "https://account.booking.com" else None).
Proof.
  apply (response_unavailable_or_invalid_spec "Booking" SocialScan.BOOKING).
  reflexivity.
Defined.

Section CheckerRequestFacts.
Import SocialScan.
Context {Token Proxy : Type}.
Variable proxy_list : list Proxy.

Lemma rotate_nat_add_mod base offset len :
  rotate_nat_add base offset len = (base + offset) mod len.
Proof.
  unfold rotate_nat_add.
  by rewrite <- Nat2Z.inj_add, <- Nat2Z.inj_mod, Nat2Z.id.
Qed.

(** With proxies, the index is always in range. *)
Lemma select_proxy_in_range request_count :
  proxy_list ≠ [] →
  ∃ proxy, select_proxy proxy_list request_count = Ok (Some proxy)
           ∧ proxy_list !! (request_count mod length proxy_list) = Some proxy.
Proof.
  intros Hne. unfold select_proxy.
  destruct proxy_list as [|p ps] eqn:Hlist; [done |].
  rewrite <- Hlist.
  destruct (lookup_lt_is_Some_2 proxy_list (request_count mod length proxy_list))
    as [proxy Hproxy].
  { apply Nat.mod_upper_bound. by rewrite Hlist. }
  rewrite Hproxy. eauto.
Qed.

Lemma select_proxy_never_raises request_count :
  ∃ proxy, select_proxy proxy_list request_count = Ok proxy.
Proof.
  destruct (decide (proxy_list = [])) as [Hnil|Hne].
  - unfold select_proxy. rewrite Hnil. eauto.
  - destruct (select_proxy_in_range request_count Hne) as (proxy & -> & _). eauto.
Qed.

Lemma proxies_of_requests_select n (self : checker Token) :
  proxies_of_requests proxy_list n self
  = (λ i, select_proxy proxy_list (request_count self + i)) <$> seq 0 n.
Proof.
  revert self. induction n as [|n IH]; intros self; [done |].
  cbn [proxies_of_requests seq fmap list_fmap]. unfold _request.
  rewrite Nat.add_0_r.
  destruct (select_proxy_never_raises (request_count self)) as [proxy ->].
  f_equal. rewrite IH. cbn [request_count].
  rewrite <- fmap_S_seq, <- list_fmap_compose.
  apply list_fmap_ext. intros ? i _. cbn. f_equal. lia.
Qed.

(** X18.  Proxy rotation.  Picking a proxy never fails: without proxies every
    request goes without one; with proxies, as many requests in a row as
    there are proxies pick every proxy once, in list order starting at the
    position of the request counter, and the choice repeats with that
    period. *)
Theorem proxies_rotate (self : checker Token) n :
  (proxy_list = [] → proxies_of_requests proxy_list n self = replicate n (Ok None))
  ∧ (proxy_list ≠ [] →
       proxies_of_requests proxy_list (length proxy_list) self
       = (λ proxy, Ok (Some proxy)) <$> rotate (request_count self) proxy_list
       ∧ select_proxy proxy_list (n + length proxy_list)
         = select_proxy proxy_list n).
Proof.
  split.
  - intros Hnil. rewrite proxies_of_requests_select.
    unfold select_proxy. rewrite Hnil.
    induction n as [|n IH] in self |- *; [done |].
    cbn [seq fmap list_fmap replicate]. f_equal.
    rewrite <- fmap_S_seq, <- list_fmap_compose. apply (IH self).
  - intros Hne. split.
    + rewrite proxies_of_requests_select.
      apply list_eq. intros i.
      rewrite !list_lookup_fmap.
      destruct (decide (i < length proxy_list)) as [Hi|Hi].
      * rewrite lookup_seq_lt by done. cbn [fmap option_fmap option_map Nat.add].
        rewrite lookup_rotate_r by done. rewrite rotate_nat_add_mod.
        destruct (select_proxy_in_range (request_count self + i) Hne)
          as (proxy & -> & ->).
        done.
      * rewrite lookup_seq_ge by lia.
        rewrite (lookup_ge_None_2 (rotate _ _)); [done |].
        rewrite length_rotate. lia.
    + unfold select_proxy. destruct proxy_list as [|p ps] eqn:Hlist; [done |].
      rewrite <- Hlist.
      replace ((n + length proxy_list) mod length proxy_list)
        with (n mod length proxy_list); [done |].
      rewrite <- (Nat.Div0.add_mod_idemp_r n (length proxy_list)).
      by rewrite Nat.Div0.mod_same, Nat.add_0_r.
Qed.

(** X19.  Headers of a checker request.  A request never fails before the call
    of [session.request] and counts once; the default User-Agent replaces
    a User-Agent passed by the caller, every other header of the caller is
    sent as passed, and the token cache is not touched. *)
Theorem checker_request_headers (headers : gmap string string)
    (self : checker Token) :
  ∃ proxy sent self',
    _request proxy_list (Some headers) self = (Ok (proxy, sent), self')
    ∧ sent !! "User-Agent" = DEFAULT_HEADERS !! "User-Agent"
    ∧ is_Some (sent !! "User-Agent")
    ∧ (∀ k, k ≠ "User-Agent" → sent !! k = headers !! k)
    ∧ request_count self' = request_count self + 1
    ∧ prerequest_sent self' = prerequest_sent self
    ∧ token self' = token self
    ∧ prerequest_calls self' = prerequest_calls self.
Proof.
  unfold _request.
  destruct (select_proxy_never_raises (request_count self)) as [proxy ->].
  eexists _, _, _. split; [reflexivity |]. cbn.
  unfold DEFAULT_HEADERS. split_and!; try done.
  - by rewrite (lookup_union_Some_l _ _ _ _ (lookup_singleton_eq _ _)),
      lookup_singleton_eq.
  - rewrite (lookup_union_Some_l _ _ _ _ (lookup_singleton_eq _ _)). eauto.
  - intros k Hk. rewrite lookup_union_r; [done |].
    by apply lookup_singleton_ne.
Qed.
End CheckerRequestFacts.

Section TokenMore.
Import SocialScan.
Context {Token : Type}.
Variable prerequest : nat → acquisition Token.

Lemma get_token_times_after_some n (self : checker Token) t :
  prerequest_sent self = true → token self = Some t →
  get_token_times prerequest n self = (replicate n (Ok t), self).
Proof.
  intros Hsent Htoken. induction n as [|n IH]; [done |].
  cbn [get_token_times replicate].
  by rewrite (get_token_cached prerequest self Hsent), Htoken, IH.
Qed.

(** Calls made while every acquisition raises: each call raises the
    exception of its own acquisition and leaves the flag unset. *)
Lemma get_token_times_raising (errors : nat → exn) k self :
  prerequest_sent self = false →
  (∀ i, i < k →
     outcome (prerequest (prerequest_calls self + i)) = Raise (errors i)) →
  ∃ self',
    get_token_times prerequest k self
      = ((λ i, Raise (errors i)) <$> seq 0 k, self')
    ∧ prerequest_sent self' = false
    ∧ token self' = token self
    ∧ prerequest_calls self' = prerequest_calls self + k.
Proof.
  revert errors self. induction k as [|k IH]; intros errors self Hsent Hraise.
  - exists self. by rewrite Nat.add_0_r.
  - cbn [get_token_times]. unfold get_token at 1. rewrite Hsent.
    pose proof (Hraise 0) as Hfirst. rewrite Nat.add_0_r in Hfirst.
    rewrite Hfirst by lia.
    edestruct (IH (λ i, errors (S i))) as (self' & -> & Hsent' & Htoken & Hcalls);
      [| | eexists; split_and!; [| exact Hsent' | exact Htoken |]].
    + done.
    + intros i Hi. cbn [prerequest_calls].
      replace (S (prerequest_calls self) + i)
        with (prerequest_calls self + S i) by lia.
      apply Hraise. lia.
    + cbn [seq fmap list_fmap]. f_equal. f_equal.
      by rewrite <- fmap_S_seq, <- list_fmap_compose.
    + rewrite Hcalls. cbn. lia.
Qed.

(** X20.  A token is acquired by the first acquisition that does not raise.  On a
    fresh instance, when the first [k] acquisitions raise and the next one
    returns a token, the first [k] calls of [get_token] raise the exception
    of their own acquisition, the call after them returns the token, and
    every later call returns the same token from the cache: [prerequest] has
    been invoked [k + 1] times and is not invoked again. *)
Theorem get_token_acquires_after_exceptions (errors : nat → exn) k m t :
  (∀ i, i < k → outcome (prerequest i) = Raise (errors i)) →
  outcome (prerequest k) = Ok (Some t) →
  let calls := get_token_times prerequest (k + S m) init in
  calls.1 = ((λ i, Raise (errors i)) <$> seq 0 k) ++ replicate (S m) (Ok t)
  ∧ prerequest_calls calls.2 = S k
  ∧ token calls.2 = Some t
  ∧ prerequest_sent calls.2 = true.
Proof.
  intros Hraise Hok.
  assert (∀ n n' (self : checker Token),
            get_token_times prerequest (n + n') self
            = let first := get_token_times prerequest n self in
              let rest := get_token_times prerequest n' first.2 in
              (first.1 ++ rest.1, rest.2)) as Hsplit.
  { induction n as [|n IH]; intros n' self.
    - cbn. by destruct (get_token_times prerequest n' self).
    - cbn [Nat.add get_token_times].
      destruct (get_token prerequest self) as [r self1].
      rewrite IH. cbn zeta.
      destruct (get_token_times prerequest n self1) as [rs self2]. cbn [fst snd].
      by destruct (get_token_times prerequest n' self2). }
  destruct (get_token_times_raising errors k init) as (self_k & Hk & Hsent & Htoken & Hcalls);
    [done | done |].
  cbn zeta. rewrite Hsplit, Hk. cbn [fst snd].
  cbn [get_token_times]. unfold get_token at 1 2 3 4.
  rewrite Hsent, Hcalls. cbn [init prerequest_calls Nat.add]. rewrite Hok.
  cbn [token].
  rewrite (get_token_times_after_some m _ t) by done.
  done.
Qed.
End TokenMore.

(** Two timeouts, then the token page answers; five calls in all. *)
Lemma get_token_acquires_after_exceptions_witness :
  (SocialScan.get_token_times Scenarios.token_at_third_try (2 + 3)
     SocialScan.init).1
  = ((λ _, Raise (RequestException "Timeout")) <$> seq 0 2)
      ++ replicate 3 (Ok "csrf-1234")
  ∧ SocialScan.prerequest_calls
      (SocialScan.get_token_times Scenarios.token_at_third_try (2 + 3)
         SocialScan.init).2 = 3
  ∧ SocialScan.token
      (SocialScan.get_token_times Scenarios.token_at_third_try (2 + 3)
         SocialScan.init).2 = Some "csrf-1234"
  ∧ SocialScan.prerequest_sent
      (SocialScan.get_token_times Scenarios.token_at_third_try (2 + 3)
         SocialScan.init).2 = true.
Proof.
  apply (get_token_acquires_after_exceptions Scenarios.token_at_third_try
           (λ _, RequestException "Timeout") 2 2 "csrf-1234").
  - intros [|[|i]] Hi; [reflexivity.. | lia].
  - reflexivity.
Defined.

(* ===================================================================== *)
(** * Queries across platforms *)
(* ===================================================================== *)

Section QueryFacts.
Import SocialScan Utils.
Context {Data Token : Type}.
Variable EMAIL_REGEX_match : string → bool.
Variable check_email :
  Platforms → option (checker Token → string →
                      result (option (PlatformResponse Data)) * checker Token).

Abbreviation query := (query EMAIL_REGEX_match check_email).

Lemma Platforms_eqb_eq p q : Platforms_eqb p q = true ↔ p = q.
Proof. destruct p, q; cbn; split; done. Qed.

(** X21.  One query.  [query] lets no Exception through.  For an e-mail
    address and a platform whose class has [check_email]: when the platform
    has no checker, when [check_email] returns [None], or when it raises an
    Exception, the result is the failure record of that platform and query,
    with all three flags false, an empty message and neither link nor data;
    otherwise the result is the response the adapter returned.  Only what
    is not an Exception is raised.  Whatever the outcome, the checker is
    left as [check_email] left it.  A query that is not an e-mail address,
    or a platform without [check_email], gives no result and touches no
    checker; in every case the checkers of the other platforms are left as
    they are. *)
Theorem query_outcomes query_ platform (checkers : checkers_dict) :
  let r := (query query_ platform checkers).1 in
  let checkers' := (query query_ platform checkers).2 in
  let failed : PlatformResponse Data := failure platform query_ in
  (EMAIL_REGEX_match query_ = false ∨ check_email platform = None →
     r = Ok None ∧ checkers' = checkers)
  ∧ (∀ method,
       EMAIL_REGEX_match query_ = true →
       check_email platform = Some method →
       (checkers platform = None →
          r = Ok (Some failed) ∧ checkers' = checkers)
       ∧ (∀ self,
            checkers platform = Some self →
            (∀ response,
               (method self query_).1 = Ok (Some response) →
               r = Ok (Some response))
            ∧ ((method self query_).1 = Ok None →
               r = Ok (Some failed))
            ∧ (∀ e,
                 (method self query_).1 = Raise e →
                 r = if is_Exception e
                     then Ok (Some failed)
                     else Raise e)
            ∧ checkers' platform = Some (method self query_).2))
  ∧ (∀ e, r = Raise e → is_Exception e = false)
  ∧ (SocialScan.platform failed = platform
     ∧ SocialScan.query failed = query_
     ∧ available failed = false
     ∧ valid failed = false
     ∧ success failed = false
     ∧ message failed = ""
     ∧ link failed = None
     ∧ data failed = None)
  ∧ (∀ other, other ≠ platform → checkers' other = checkers other).
Proof.
  cbn zeta.
  assert (∀ self', set_checker platform self' checkers platform = Some self')
    as Hset.
  { intros self'. unfold set_checker.
    by rewrite (proj2 (Platforms_eqb_eq platform platform) eq_refl). }
  assert (∀ self' other, other ≠ platform →
            set_checker platform self' checkers other = checkers other) as Hother.
  { intros self' other Hne. unfold set_checker.
    destruct (Platforms_eqb other platform) eqn:Heq; [| done].
    by apply Platforms_eqb_eq in Heq. }
  split; [| split; [| split; [| split]]].
  - unfold Utils.query. intros [Hmail|Hnone].
    + by rewrite Hmail.
    + rewrite Hnone. by destruct (EMAIL_REGEX_match query_).
  - intros method Hmail Hcheck. unfold Utils.query. rewrite Hmail, Hcheck.
    split; [by intros -> |].
    intros self ->.
    destruct (method self query_) as [[[response|]|e] self'] eqn:Hmethod;
      cbn [fst snd].
    + split_and!; [by intros ? [= <-] | done | done | apply Hset].
    + split_and!; [done | done | done | apply Hset].
    + destruct (is_Exception e) eqn:He; cbn [fst snd];
        (split_and!; [done | done | | apply Hset]);
        intros ? [= <-]; by rewrite He.
  - intros e. unfold Utils.query.
    destruct (EMAIL_REGEX_match query_); [| done].
    destruct (check_email platform) as [method|]; [| done].
    destruct (checkers platform) as [self|]; [| done].
    destruct (method self query_) as [[[response|]|e'] self']; [done | done |].
    destruct (is_Exception e') eqn:He; cbn [fst]; [done |].
    by intros [= <-].
  - repeat split.
  - intros other Hne. unfold Utils.query.
    destruct (EMAIL_REGEX_match query_); [| done].
    destruct (check_email platform) as [method|]; [| done].
    destruct (checkers platform) as [self|]; [| done].
    destruct (method self query_) as [[[response|]|e'] self'];
      [by apply Hother.. |].
    destruct (is_Exception e'); by apply Hother.
Qed.

(** What the list of results needs to know about one query. *)
Lemma query_result_kinds query_ platform (checkers : checkers_dict) :
  (∀ e, (query query_ platform checkers).1 = Raise e → is_Exception e = false)
  ∧ (EMAIL_REGEX_match query_ = false ∨ check_email platform = None →
       (query query_ platform checkers).1 = Ok None).
Proof.
  unfold Utils.query.
  destruct (EMAIL_REGEX_match query_); [| split; [done | intros; tauto]].
  destruct (check_email platform) as [method|]; [| split; [done | intros; tauto]].
  destruct (checkers platform) as [self|]; [| split; [done | intros [|]; done]].
  destruct (method self query_) as [[[response|]|e] self'];
    try (split; [done | intros [|]; done]).
  destruct (is_Exception e) eqn:He; cbn [fst];
    (split; [| intros [|]; done]); [done |].
  by intros ? [= <-].
Qed.

Lemma omap_cons {A B} (f : A → option B) x l :
  omap f (x :: l)
  = match f x with Some y => y :: omap f l | None => omap f l end.
Proof. reflexivity. Qed.

Lemma run_queries_length queries platforms (checkers : checkers_dict) :
  length (run_queries EMAIL_REGEX_match check_email queries platforms checkers)
  = length platforms.
Proof.
  revert checkers. induction platforms as [|p ps IH]; intros checkers; [done |].
  cbn [run_queries]. destruct (query queries p checkers) as [r checkers'].
  cbn. by rewrite IH.
Qed.

(** X22.  All platforms.  [execute_queries] returns no result at all for a query
    that is not an e-mail address; for an e-mail address it returns exactly
    one result for each listed platform whose class has [check_email], and
    none for the others; no result is an Exception. *)
Theorem execute_queries_results queries platforms :
  length (execute_queries EMAIL_REGEX_match check_email queries platforms)
  = (if EMAIL_REGEX_match queries
     then length (filter (λ p, is_Some (check_email p)) platforms)
     else 0)
  ∧ Forall (λ r, ∀ e, r = Raise e → is_Exception e = false)
      (execute_queries EMAIL_REGEX_match check_email queries platforms).
Proof.
  unfold execute_queries.
  generalize (init_checkers (Token := Token) platforms) as checkers.
  induction platforms as [|p ps IH]; intros checkers.
  - cbn. by destruct (EMAIL_REGEX_match queries).
  - cbn [run_queries].
    pose proof (query_result_kinds queries p checkers) as (Hexn & Hnone).
    destruct (query queries p checkers) as [r checkers'] eqn:Hquery.
    cbn [fst snd] in Hexn, Hnone.
    destruct (IH checkers') as [Hlen Hall].
    rewrite filter_cons, omap_cons.
    destruct (EMAIL_REGEX_match queries) eqn:Hemail.
    + destruct (check_email p) as [method|] eqn:Hmethod.
      * rewrite decide_True by eauto.
        assert (r ≠ Ok None) as Hr.
        { unfold Utils.query in Hquery. rewrite Hemail, Hmethod in Hquery.
          repeat case_match; simplify_eq; done. }
        destruct r as [[response|]|e]; [| done |].
        -- cbn [length]. split; [by rewrite Hlen | by constructor].
        -- cbn [length]. split; [by rewrite Hlen |].
           constructor; [| done]. intros e' [= <-]. by apply Hexn.
      * rewrite decide_False by (intros [? ?]; done).
        rewrite Hnone by (by right). done.
    + rewrite Hnone by (by left). done.
Qed.
End QueryFacts.

(* ===================================================================== *)
(** * The page loop of the TataCliq crawler *)
(* ===================================================================== *)

Section TataCliqFacts.
Import Base TataCliqSearch.
Variable project_dir : string.
Variable world : env body.

Abbreviation tcfg := (TataCliqSearch.cfg project_dir).

(** A response returned by the request layer is one the site has sent. *)
Lemma request_loop_returns_sent_response {Body} cfg (w : env Body) check fuel
    retry_count s response s' :
  request_loop cfg w check fuel retry_count s = Some (Ok response, s') →
  ∃ n p, http w n p = Responds response.
Proof.
  revert retry_count s.
  induction fuel as [|fuel IH]; intros retry_count s; cbn [request_loop];
    destruct (retry_count <? MAX_RETRIES cfg)%Z; try done.
  destruct (attempt cfg w check retry_count s) as [[rc'|r|e] s1] eqn:Hstep;
    [apply IH | | done].
  intros [= -> ->]. unfold attempt, on_exception in Hstep.
  repeat case_match; simplify_eq. eauto.
Qed.

(** One page: at most three requests, and a new page count that the site
    has reported. *)
Lemma tatacliq_crawl_step (limit : Z) total_pages s r s' :
  (∀ n p response b t,
     http world n p = Responds response → json response = Some b →
     totalPages b = Some t → (t ≤ limit)%Z) →
  crawl project_dir world total_pages s = (r, s') →
  request_count s' ≤ request_count s + 3
  ∧ (∀ t, r = Ok (true, t) → (t ≤ limit)%Z).
Proof.
  intros Hlimit. unfold crawl, get, bind, lift, ret, parse_data, modify.
  pose proof (_request_loop tcfg world check_error s) as Hloop.
  destruct (_request tcfg world check_error s) as [[response|e] s1] eqn:Hreq.
  2:{ apply request_loop_footprint in Hloop as (_ & _ & _ & _ & Hcount & _); [| lia].
      intros [= <- <-]. split; [exact Hcount | done]. }
  pose proof Hloop as Hsent.
  apply request_loop_returns_sent_response in Hsent as (n & p & Hsent).
  apply request_loop_footprint in Hloop as (_ & _ & _ & _ & Hcount & _); [| lia].
  change (Z.to_nat (MAX_RETRIES tcfg - 0)) with 3 in Hcount.
  unfold get_json.
  destruct (content_type response) as [ct|]; [| intros [= <- <-]; by split].
  destruct (negb _); [intros [= <- <-]; by split |].
  destruct (json response) as [b|] eqn:Hjson; [| intros [= <- <-]; by split].
  destruct (searchresult b) as [[|item items]|]; try (intros [= <- <-]; by split).
  destruct (totalPages b) as [t|] eqn:Ht; cbn [Virgio.getitem];
    intros [= <- <-]; (split; [exact Hcount |]); [| done].
  intros t' [= <-]. by eapply Hlimit.
Qed.

Lemma tatacliq_run_loop_ends (limit : Z) fuel page_number total_pages s :
  (∀ n p response b t,
     http world n p = Responds response → json response = Some b →
     totalPages b = Some t → (t ≤ limit)%Z) →
  (total_pages ≤ limit)%Z → (0 ≤ page_number)%Z →
  (limit - page_number + 1 ≤ Z.of_nat fuel)%Z →
  ∃ r s',
    run_loop project_dir world fuel page_number total_pages s = Some (r, s')
    ∧ request_count s'
      ≤ request_count s + 3 * Z.to_nat (limit - page_number + 1).
Proof.
  intros Hlimit. revert page_number total_pages s.
  induction fuel as [|fuel IH]; intros page_number total_pages s Htotal Hpage Hfuel;
    cbn [run_loop]; destruct (Z.leb_spec page_number total_pages);
    try (eexists _, _; split; [reflexivity |];
         unfold output_data; case_match; cbn; lia).
  - lia.
  - destruct (crawl project_dir world total_pages
                (set_param "page" (pretty page_number) s))
      as [[[[] t]|e] s1] eqn:Hcrawl;
      apply (tatacliq_crawl_step limit) in Hcrawl as [Hcount Ht]; try done;
      cbn [request_count set_param] in Hcount.
    + destruct (IH (page_number + 1)%Z t (sleep (DInt (DELAY tcfg)) s1))
        as (r & s' & -> & Hcount'); [by apply Ht | lia | lia |].
      eexists _, _. split; [reflexivity |].
      cbn [request_count sleep] in Hcount'. lia.
    + eexists _, _. split; [reflexivity |].
      unfold output_data; case_match; cbn; lia.
    + eexists _, _. split; [reflexivity |]. lia.
Qed.

(** X23.  The crawl ends when the site bounds its page count.  When every
    response reports at most [limit] pages, [run] ends within [limit + 1]
    page requests, pages [0] to [limit], whatever else the site does:
    [limit + 1] units of fuel suffice and at most [3 * (limit + 1)] HTTP
    requests are sent. *)
Theorem tatacliq_run_ends (limit : Z) fuel s :
  (0 ≤ limit)%Z →
  (∀ n p response b t,
     http world n p = Responds response → json response = Some b →
     totalPages b = Some t → (t ≤ limit)%Z) →
  (limit + 1 ≤ Z.of_nat fuel)%Z →
  ∃ r s',
    run project_dir world fuel s = Some (r, s')
    ∧ request_count s' ≤ request_count s + 3 * Z.to_nat (limit + 1).
Proof.
  intros Hnonneg Hlimit Hfuel. unfold run.
  destruct fuel as [|fuel]; [lia |].
  cbn [run_loop]. change (0 <=? 100)%Z with true. cbn iota.
  destruct (crawl project_dir world 100 (set_param "page" (pretty 0%Z) s))
    as [[[[] t]|e] s1] eqn:Hcrawl;
    apply (tatacliq_crawl_step limit) in Hcrawl as [Hcount Ht]; try done;
    cbn [request_count set_param] in Hcount.
  - destruct (tatacliq_run_loop_ends limit fuel (0 + 1) t
                (sleep (DInt (DELAY tcfg)) s1) Hlimit)
      as (r & s' & -> & Hcount'); [by apply Ht | lia | lia |].
    eexists _, _. split; [reflexivity |].
    cbn [request_count sleep] in Hcount'. lia.
  - eexists _, _. split; [reflexivity |].
    unfold output_data; case_match; cbn; lia.
  - eexists _, _. split; [reflexivity |]. lia.
Qed.

Lemma lstrip_slash_spec s :
  String.prefix "/" (lstrip_slash s) = false
  ∧ lstrip_slash (lstrip_slash s) = lstrip_slash s.
Proof.
  induction s as [|c s [IH1 IH2]]; [done |].
  cbn [lstrip_slash]. destruct (Ascii.eqb c "/") eqn:Hc; [done |].
  cbn [lstrip_slash]. rewrite Hc. split; [| done].
  cbn [String.prefix]. destruct (ascii_dec "/" c) as [<-|]; [| done].
  by rewrite Ascii.eqb_refl in Hc.
Qed.

(** X24.  The product URL has exactly one "/" between host and path: whatever the
    item holds, the URL of the parsed record is empty, or the base URL
    followed by a non-empty path that does not start with "/", namely the
    item's [webURL] without its leading slashes. *)
Theorem parse_item_url (product : item) :
  product_url (parse_item product) = ""
  ∨ ∃ path,
      product_url (parse_item product) = "https://www.tatacliq.com/" +:+ path
      ∧ path = lstrip_slash (default "" (webURL product))
      ∧ path ≠ "" ∧ String.prefix "/" path = false.
Proof.
  unfold parse_item. cbn [product_url].
  destruct (lstrip_slash_spec (default "" (webURL product))) as [Hprefix _].
  destruct (lstrip_slash (default "" (webURL product))) as [|c path] eqn:Hpath;
    [by left |].
  right. eexists. split_and!; [reflexivity | done | done | done].
Qed.
End TataCliqFacts.

(** A search API that reports two pages and never returns an empty one. *)
Lemma tatacliq_run_ends_witness :
  ∃ r s',
    TataCliqSearch.run "/srv/crawler" Scenarios.search_site 3
      (TataCliqSearch.new) = Some (r, s')
    ∧ Base.request_count s' ≤ Base.request_count TataCliqSearch.new + 3 * Z.to_nat (2 + 1).
Proof.
  apply (tatacliq_run_ends "/srv/crawler" Scenarios.search_site 2 3
           TataCliqSearch.new).
  - lia.
  - intros n p response b t [= <-] [= <-] [= <-]. lia.
  - lia.
Defined.

(* ===================================================================== *)
(** * A page without "pageInfo" *)
(* ===================================================================== *)

(** X25.  A first page that holds products but no "pageInfo" key: the products
    are accumulated before the key is read, the KeyError ends [run] after
    this one request, and the flush of [safe_run] still writes the products
    of the page, each once, before the KeyError is raised again. *)
Theorem virgio_missing_page_info_keeps_products project_dir
    (world : Base.env Virgio.body) ct products fuel :
  Base.http world 1 Virgio.initial_params
    = Base.Responds
        {| Base.content_type := Some ct;
           Base.json :=
             Some {| Virgio.collection_products :=
                       Some {| Virgio.nodes := Some products;
                               Virgio.pageInfo := None |} |} |} →
  Base.startswith ct "application/json" = true →
  products ≠ [] →
  ∃ s',
    Base.safe_run (Virgio.cfg project_dir) world (Virgio.run project_dir world)
      (S fuel) Virgio.new
      = Some (Raise (KeyError "pageInfo"), s')
    ∧ Base.request_count s' = 1
    ∧ Base.data_saved s' = true
    ∧ Base.written s'
      = [(Base.output_file_path (Virgio.cfg project_dir) (Base.now world 0),
          Base.drop_duplicates (Virgio.parse_node <$> products))].
Proof.
  intros Hhttp Hct Hproducts.
  unfold Base.safe_run. cbn [Virgio.run].
  unfold Virgio.crawl, Base.get, Base.bind.
  rewrite (request_first_attempt (Virgio.cfg project_dir) world
             Virgio.check_error Virgio.new _ eq_refl Hhttp eq_refl).
  unfold Base.lift, Base.get_json. cbn [Base.content_type Base.json].
  rewrite Hct. cbn [negb Virgio.collection_products Virgio.getitem Virgio.nodes
                     Virgio.pageInfo].
  destruct products as [|n ns]; [done |].
  unfold Virgio.parse_data, Base.modify. cbn [Virgio.pageInfo Virgio.getitem].
  eexists. split; [reflexivity |].
  unfold Base.output_data. cbn. done.
Qed.

(** A page of three nodes, one of them twice, and no "pageInfo". *)
Lemma virgio_missing_page_info_keeps_products_witness :
  ∃ s',
    Base.safe_run (Virgio.cfg "/srv/crawler") Scenarios.no_page_info
      (Virgio.run "/srv/crawler" Scenarios.no_page_info) (S 0) Virgio.new
      = Some (Raise (KeyError "pageInfo"), s')
    ∧ Base.request_count s' = 1
    ∧ Base.data_saved s' = true
    ∧ Base.written s'
      = [("/srv/crawler/output/Virgio_products_20250101_000000.csv",
          [Scenarios.shirt_row; Scenarios.dress_row])].
Proof.
  apply (virgio_missing_page_info_keeps_products "/srv/crawler"
           Scenarios.no_page_info "application/json"
           [Scenarios.shirt; Scenarios.dress; Scenarios.shirt] 0).
  - reflexivity.
  - reflexivity.
  - discriminate.
Defined.

(** The crawl of three overlapping pages, run through [safe_run]. *)
Lemma virgio_safe_run_flushes_at_most_once_witness :
  length (Base.written Scenarios.crawled) ≤ 1
  ∧ Base.output_data (Virgio.cfg "/srv/crawler") Scenarios.three_pages
      Scenarios.crawled = Scenarios.crawled.
Proof.
  apply (virgio_safe_run_flushes_at_most_once "/srv/crawler"
           Scenarios.three_pages 3 (Ok tt) Scenarios.crawled).
  vm_compute. reflexivity.
Defined.
